(** * Export pipeline of the AI Fashion Studio

    A shallow embedding of the two [App.tsx] components of the repository:
    the one that persists its export settings ([loadInitialSettings],
    [getCanvasFilter], [handleFinalDownload]) and the one that resets them
    on every enhancement ([initialExportSettings], [handleDownload]); of
    the state their other handlers keep; of the image service they call
    ([fileToInlineData], [generateFashionImage], [enhanceImage]); and of the
    image panel with its zoom and pan ([ImageDisplay]).

    Numbers.  JavaScript numbers are IEEE-754 doubles.  Every number the
    pipeline touches is an integer (image and canvas dimensions, settings) or
    a quotient or product of such integers, and they are modelled as exact
    rationals [Q]: [/] is [Qdiv], [*] is [Qmult], [Math.round x] is
    [floor (x + 1/2)], [Math.abs] is [Qabs].  [Qdiv] by zero is [0] where
    JavaScript yields [Infinity] or [NaN]; the statements below that speak
    about a quotient carry the hypotheses that make its divisor non-zero.

    A double and the exact rational agree on integers, but a quotient or a
    product of doubles is rounded in its last bit.  The two can therefore
    disagree on a comparison or a rounding whose exact operand sits on the
    boundary: a difference of exactly 0.01 against the threshold 0.01, a
    quotient of exactly [n + 1/2] under [Math.round].  For this reason the
    statements below describe a computed number by the expression the code
    computes it with, by inequalities, or up to a stated tolerance, and a
    statement about a threshold keeps a margin on either side of it. *)

From Stdlib Require Import ZArith QArith Qround Qabs Qminmax Lia Lqa String Ascii.
From stdpp Require Import gmap strings pretty.

Open Scope string_scope.

(** ** JavaScript primitives used by the handlers *)

Module Js.

(** [Math.round]: nearest integer, halves towards plus infinity. *)
Definition Math_round (x : Q) : Z := Qfloor (x + (1 # 2)).

Definition Math_abs (x : Q) : Q := Qabs x.

(** [x >= y], [x > y] and [x < y] on numbers. *)
Definition geb (x y : Q) : bool := Qle_bool y x.
Definition gtb (x y : Q) : bool := negb (Qle_bool x y).
Definition ltb (x y : Q) : bool := negb (Qle_bool y x).

(** Truthiness of a [number | null]: [null] and [0] are falsy. *)
Definition truthy (v : option Q) : bool :=
  match v with
  | Some q => negb (Qeq_bool q 0)
  | None => false
  end.

(** [if (v) { yes(v) } else { no }] for [v : number | null]. *)
Definition ifTruthy {A} (v : option Q) (yes : Q -> A) (no : A) : A :=
  match v with
  | Some q => if Qeq_bool q 0 then no else yes q
  | None => no
  end.

(** [v || d] for [v : number | null] and a number [d]. *)
Definition orElse (v : option Q) (d : Q) : Q := ifTruthy v (fun q => q) d.

(** White space removed by [String.prototype.trim], on 8-bit characters. *)
Definition isWhiteSpace (c : ascii) : bool :=
  let n := nat_of_ascii c in
  ((9 <=? n)%nat && (n <=? 13)%nat) || (n =? 32)%nat || (n =? 160)%nat.

Fixpoint trimStart (s : string) : string :=
  match s with
  | String c s' => if isWhiteSpace c then trimStart s' else s
  | EmptyString => EmptyString
  end.

(** Removes trailing white space: a character is kept as soon as something
    after it survives or it is not white space itself. *)
Fixpoint trimEnd (s : string) : string :=
  match s with
  | String c s' =>
      match trimEnd s' with
      | EmptyString => if isWhiteSpace c then EmptyString else String c EmptyString
      | rest => String c rest
      end
  | EmptyString => EmptyString
  end.

Definition trim (s : string) : string := trimEnd (trimStart s).

End Js.

(** ** Parsed JSON values and object spread *)

Module Json.

#[warnings="-register-all"]
Inductive json :=
| JNull
| JBool (b : bool)
| JNum (q : Q)
| JStr (s : string)
| JArr (l : list json)
| JObj (m : gmap string json).

(** A JavaScript object as a finite map from property names to values. *)
Abbreviation object := (gmap string json).

(** Truthiness of a possibly [undefined] ([None]) value. *)
Definition truthy (v : option json) : bool :=
  match v with
  | None | Some JNull => false
  | Some (JBool b) => b
  | Some (JNum q) => negb (Qeq_bool q 0)
  | Some (JStr s) => negb (String.eqb s "")
  | Some (JArr _) | Some (JObj _) => true
  end.

Fixpoint chars (s : string) : list json :=
  match s with
  | String c s' => JStr (String c EmptyString) :: chars s'
  | EmptyString => []
  end.

Definition indexed (l : list json) : object :=
  list_to_map (imap (fun i v => (pretty i, v)) l).

(** The own enumerable properties copied by [{...v}]: the members of an
    object, the indexed elements of an array, the indexed characters of a
    string, and nothing for [null], booleans and numbers. *)
Definition ownProps (v : json) : object :=
  match v with
  | JObj m => m
  | JArr l => indexed l
  | JStr s => indexed (chars s)
  | JNull | JBool _ | JNum _ => ∅
  end.

(** [{...a, ...b}]: the properties of [b] override those of [a]. *)
Definition spread (a b : object) : object := b ∪ a.

(** The read [v.k] for a name [k] that is neither an array index nor
    [length]: [None] when it throws a [TypeError] ([v] is [null]),
    [Some None] when it is [undefined]. *)
Definition getField (v : json) (k : string) : option (option json) :=
  match v with
  | JNull => None
  | JObj m => Some (m !! k)
  | JBool _ | JNum _ | JStr _ | JArr _ => Some None
  end.

(** [v || {}] followed by a spread: the properties that [...(v || {})]
    contributes. *)
Definition ownPropsOrEmpty (v : option json) : object :=
  match v with
  | Some j => if truthy v then ownProps j else ∅
  | None => ∅
  end.

End Json.

Import Json.

(** ** Settings model *)

Inductive Format := png | jpeg.

Inductive Preset := original | hd | uhd | square | portrait | landscape | custom.

(** Modelled from the spec: [ColorGradingSettings] is declared in
    [components/ExportModal], which is not among the sources; section 3 gives
    its fields.  The grading preset is an enumeration of which only [none] is
    known, so it is kept as its name. *)
Record ColorGradingSettings := {
  gradingPreset : string;
  saturation : Q;
  contrast : Q;
  brightness : Q;
  warmth : Q
}.

(** Modelled from the spec: [ResolutionSettings] is declared in
    [components/ExportModal], which is not among the sources; section 3 gives
    its fields.  The preset ['4k'] is written [uhd]. *)
Record ResolutionSettings := {
  preset : Preset;
  width : option Q;
  height : option Q;
  aspectRatioLocked : bool
}.

Record ExportSettings := {
  format : Format;
  quality : Q;
  colorGrading : ColorGradingSettings;
  resolution : ResolutionSettings
}.

(** The constant of the component that resets its settings on every
    enhancement. *)
Definition initialExportSettings : ExportSettings := {|
  format := jpeg;
  quality := 95;
  colorGrading := {| gradingPreset := "none"; saturation := 100;
                     contrast := 100; brightness := 100; warmth := 0 |};
  resolution := {| preset := original; width := None; height := None;
                   aspectRatioLocked := true |}
|}.

(** ** Loading the persisted settings *)

(** What [localStorage.getItem] and [JSON.parse] make of the store. *)
Inductive Saved :=
| StorageError          (* [getItem] throws *)
| Missing               (* [getItem] returns [null] or the empty string *)
| Malformed             (* [JSON.parse] throws a [SyntaxError] *)
| Parsed (v : json).    (* [JSON.parse] returns [v] *)

Definition defaultColorGrading : object :=
  {[ "preset" := JStr "none"; "saturation" := JNum 100;
     "contrast" := JNum 100; "brightness" := JNum 100; "warmth" := JNum 0 ]}.

Definition defaultResolution : object :=
  {[ "preset" := JStr "original"; "width" := JNull; "height" := JNull;
     "aspectRatioLocked" := JBool true ]}.

Definition defaultSettings : object :=
  {[ "format" := JStr "jpeg"; "quality" := JNum 92;
     "colorGrading" := JObj defaultColorGrading;
     "resolution" := JObj defaultResolution ]}.

(** The object literal assigned to [mergedSettings]; [None] when reading
    [parsed.colorGrading] or [parsed.resolution] throws. *)
Definition mergeSettings (parsed : json) : option object :=
  match getField parsed "colorGrading", getField parsed "resolution" with
  | Some cg, Some res =>
      Some (<["resolution" := JObj (spread defaultResolution (ownPropsOrEmpty res))]>
            (<["colorGrading" := JObj (spread defaultColorGrading (ownPropsOrEmpty cg))]>
             (spread defaultSettings (ownProps parsed))))
  | _, _ => None
  end.

(** [['png', 'jpeg'].includes(format)] *)
Definition formatIncluded (v : option json) : bool :=
  match v with
  | Some (JStr s) => String.eqb s "png" || String.eqb s "jpeg"
  | _ => false
  end.

(** [typeof quality === 'number' && quality >= 10 && quality <= 100] *)
Definition qualityInRange (v : option json) : bool :=
  match v with
  | Some (JNum q) => Js.geb q 10 && Qle_bool q 100
  | _ => false
  end.

(** The "basic validation" of the merged record. *)
Definition basicValidation (merged : object) : bool :=
  formatIncluded (merged !! "format") && qualityInRange (merged !! "quality").

Definition loadInitialSettings (saved : Saved) : object :=
  match saved with
  | Missing => defaultSettings
  | Parsed parsed =>
      match mergeSettings parsed with
      | Some mergedSettings =>
          if basicValidation mergedSettings then mergedSettings else defaultSettings
      | None => defaultSettings
      end
  | StorageError | Malformed => defaultSettings
  end.

(** ** The decoded image and what an export does with it *)

Record Image := { imgWidth : Z; imgHeight : Z }.

(** What becomes of the image URL held by the component once it is assigned
    to [img.src]: [onload] fires with the decoded image, or [onerror]. *)
Inductive Decoded :=
| Loads (img : Image)
| Fails.

Record CropRect := { sx : Q; sy : Q; sWidth : Q; sHeight : Q }.

(** The two forms of [ctx.drawImage] the handlers call; the destination is
    always the whole canvas. *)
Inductive DrawCall :=
| DrawWhole                  (* drawImage(img, 0, 0, canvas.width, canvas.height) *)
| DrawRegion (r : CropRect). (* drawImage(img, sx, sy, sWidth, sHeight, 0, 0, ...) *)

(** One run of the canvas code up to the download link.  The canvas keeps
    the integers assigned to [canvas.width] and [canvas.height], as browsers
    do for values from 0 up to 2^31 - 1; a browser replaces a negative value
    by the default size (300 or 150), which this record does not model: the
    properties below that give a canvas size concern targets that are not
    negative. *)
Record Rendering := {
  canvasWidth : Z;
  canvasHeight : Z;
  filter : string;
  drawn : DrawCall;
  mimeType : string;             (* first argument of [canvas.toDataURL] *)
  encoderQuality : option Q;     (* second argument, [None] when absent or [undefined] *)
  filename : string              (* [link.download] *)
}.

Inductive Outcome :=
| Nothing                     (* the handler returns without any effect *)
| ErrorShown (msg : string)   (* [setError(msg)], nothing is downloaded *)
| Downloaded (r : Rendering). (* the link is clicked *)

Definition formatName (f : Format) : string :=
  match f with png => "png" | jpeg => "jpeg" end.

Open Scope Q_scope.

(** ** Resolution and crop of [handleFinalDownload] *)

Module FinalDownload.

Record Target := {
  targetWidth : Q;
  targetHeight : Q;
  requiresCropping : bool
}.

(** The [switch] on [exportSettings.resolution.preset]. *)
Definition resolve (originalWidth originalHeight : Z) (r : ResolutionSettings) : Target :=
  let originalAspectRatio := inject_Z originalWidth / inject_Z originalHeight in
  match preset r with
  | hd =>
      if Js.geb originalAspectRatio 1
      then {| targetWidth := 1920; targetHeight := 1920 / originalAspectRatio;
              requiresCropping := false |}
      else {| targetWidth := 1920 * originalAspectRatio; targetHeight := 1920;
              requiresCropping := false |}
  | uhd =>
      if Js.geb originalAspectRatio 1
      then {| targetWidth := 3840; targetHeight := 3840 / originalAspectRatio;
              requiresCropping := false |}
      else {| targetWidth := 3840 * originalAspectRatio; targetHeight := 3840;
              requiresCropping := false |}
  | square =>
      {| targetWidth := 1080; targetHeight := 1080; requiresCropping := true |}
  | portrait =>
      {| targetWidth := 1080; targetHeight := 1920; requiresCropping := true |}
  | landscape =>
      {| targetWidth := 1920; targetHeight := 1080; requiresCropping := true |}
  | custom =>
      let targetWidth := Js.orElse (width r) (inject_Z originalWidth) in
      let targetHeight := Js.orElse (height r) (inject_Z originalHeight) in
      {| targetWidth := targetWidth; targetHeight := targetHeight;
         requiresCropping :=
           Js.gtb (Js.Math_abs (targetWidth / targetHeight - originalAspectRatio)) 0.01 |}
  | original =>
      {| targetWidth := inject_Z originalWidth; targetHeight := inject_Z originalHeight;
         requiresCropping := false |}
  end.

(** The body of [if (requiresCropping)]: the source rectangle handed to
    [drawImage]. *)
Definition computeCropRect (originalWidth originalHeight canvasWidth canvasHeight : Z)
  : CropRect :=
  let originalAspectRatio := inject_Z originalWidth / inject_Z originalHeight in
  let canvasAspectRatio := inject_Z canvasWidth / inject_Z canvasHeight in
  if Js.gtb originalAspectRatio canvasAspectRatio then
    let sWidth := inject_Z originalHeight * canvasAspectRatio in
    {| sx := (inject_Z originalWidth - sWidth) / 2; sy := 0;
       sWidth := sWidth; sHeight := inject_Z originalHeight |}
  else if Js.ltb originalAspectRatio canvasAspectRatio then
    let sHeight := inject_Z originalWidth / canvasAspectRatio in
    {| sx := 0; sy := (inject_Z originalHeight - sHeight) / 2;
       sWidth := inject_Z originalWidth; sHeight := sHeight |}
  else
    {| sx := 0; sy := 0;
       sWidth := inject_Z originalWidth; sHeight := inject_Z originalHeight |}.

End FinalDownload.

(** ** Resolution of [handleDownload] *)

Module Download.

Record Target := { targetWidth : Q; targetHeight : Q }.

(** The [if]/[else if] chain on [preset]; every other preset leaves the
    image's own dimensions. *)
Definition resolve (imgWidth imgHeight : Z) (r : ResolutionSettings) : Target :=
  let targetWidth := inject_Z imgWidth in
  let targetHeight := inject_Z imgHeight in
  let sourceAspectRatio := inject_Z imgWidth / inject_Z imgHeight in
  match preset r with
  | custom =>
      Js.ifTruthy (width r)
        (fun width =>
           {| targetWidth := width;
              targetHeight := if aspectRatioLocked r then width / sourceAspectRatio
                              else Js.orElse (height r) targetHeight |})
        (Js.ifTruthy (height r)
           (fun height =>
              {| targetWidth := if aspectRatioLocked r then height * sourceAspectRatio
                                else Js.orElse (width r) targetWidth;
                 targetHeight := height |})
           {| targetWidth := targetWidth; targetHeight := targetHeight |})
  | hd =>
      {| targetWidth := if Js.geb sourceAspectRatio 1 then 1920
                        else 1920 * sourceAspectRatio;
         targetHeight := if Js.geb sourceAspectRatio 1 then 1920 / sourceAspectRatio
                         else 1920 |}
  | uhd =>
      {| targetWidth := if Js.geb sourceAspectRatio 1 then 3840
                        else 3840 * sourceAspectRatio;
         targetHeight := if Js.geb sourceAspectRatio 1 then 3840 / sourceAspectRatio
                         else 3840 |}
  | original | square | portrait | landscape =>
      {| targetWidth := targetWidth; targetHeight := targetHeight |}
  end.

End Download.

(** ** The two handlers *)

Section Handlers.

(** [Number::toString], which the template literals apply to the grading
    fields. *)
Variable numberToString : Q -> string.

Definition getCanvasFilter (settings : ColorGradingSettings) : string :=
  let filterString := "" in
  let filterString := filterString ++ "saturate(" ++ numberToString (saturation settings) ++ "%) " in
  let filterString := filterString ++ "contrast(" ++ numberToString (contrast settings) ++ "%) " in
  let filterString := filterString ++ "brightness(" ++ numberToString (brightness settings) ++ "%) " in
  let filterString := filterString ++ "sepia(" ++ numberToString (warmth settings) ++ "%)" in
  Js.trim filterString.

(** [img.onload] of [handleFinalDownload]; [ctx] tells whether
    [canvas.getContext('2d')] returned a context. *)
Definition finalOnload (ctx : bool) (exportSettings : ExportSettings) (img : Image)
  : Outcome :=
  if negb ctx then ErrorShown "Could not process image for download." else
  let originalWidth := imgWidth img in
  let originalHeight := imgHeight img in
  let target := FinalDownload.resolve originalWidth originalHeight (resolution exportSettings) in
  let canvasWidth := Js.Math_round (FinalDownload.targetWidth target) in
  let canvasHeight := Js.Math_round (FinalDownload.targetHeight target) in
  let filter := getCanvasFilter (colorGrading exportSettings) in
  let drawn :=
    if FinalDownload.requiresCropping target
    then DrawRegion (FinalDownload.computeCropRect originalWidth originalHeight
                       canvasWidth canvasHeight)
    else DrawWhole in
  match format exportSettings with
  | png =>
      Downloaded {| canvasWidth := canvasWidth; canvasHeight := canvasHeight;
                    filter := filter; drawn := drawn;
                    mimeType := "image/png"; encoderQuality := None;
                    filename := "ai-fashion-photoshoot-enhanced.png" |}
  | jpeg =>
      let qualityValue := quality exportSettings / 100 in
      Downloaded {| canvasWidth := canvasWidth; canvasHeight := canvasHeight;
                    filter := filter; drawn := drawn;
                    mimeType := "image/jpeg"; encoderQuality := Some qualityValue;
                    filename := "ai-fashion-photoshoot-enhanced.jpeg" |}
  end.

(** [handleFinalDownload]: [enhancedImage] is the component's state, with
    what decoding it gives.  (The settings are also written to the store
    first; a failure of that write is only logged.) *)
Definition handleFinalDownload (enhancedImage : option Decoded) (ctx : bool)
    (exportSettings : ExportSettings) : Outcome :=
  match enhancedImage with
  | None => ErrorShown "No enhanced image available to download."
  | Some (Loads img) => finalOnload ctx exportSettings img
  | Some Fails => ErrorShown "Failed to load enhanced image for conversion."
  end.

(** [img.onload] of [handleDownload]. *)
Definition downloadOnload (ctx : bool) (exportSettings : ExportSettings) (img : Image)
  : Outcome :=
  if negb ctx then Nothing else
  let target := Download.resolve (imgWidth img) (imgHeight img) (resolution exportSettings) in
  let g := colorGrading exportSettings in
  Downloaded {|
    canvasWidth := Js.Math_round (Download.targetWidth target);
    canvasHeight := Js.Math_round (Download.targetHeight target);
    filter := "saturate(" ++ numberToString (saturation g) ++ "%) contrast("
              ++ numberToString (contrast g) ++ "%) brightness("
              ++ numberToString (brightness g) ++ "%) sepia("
              ++ numberToString (warmth g) ++ "%)";
    drawn := DrawWhole;
    mimeType := "image/" ++ formatName (format exportSettings);
    encoderQuality :=
      match format exportSettings with
      | jpeg => Some (quality exportSettings / 100)
      | png => None
      end;
    filename := "ai-fashion-studio." ++ formatName (format exportSettings)
  |}.

(** [handleDownload]; it installs no [onerror] handler. *)
Definition handleDownload (enhancedImageUrl : option Decoded) (ctx : bool)
    (exportSettings : ExportSettings) : Outcome :=
  match enhancedImageUrl with
  | None => Nothing
  | Some (Loads img) => downloadOnload ctx exportSettings img
  | Some Fails => Nothing
  end.

End Handlers.

(** Decimal rendering of an integer-valued number, as [Number::toString]
    prints integers of magnitude below 10^21. *)
Definition integerToString (q : Q) : string := pretty (Qfloor q).

(** ** Vocabulary of the statements *)

(** A string that [trimEnd] leaves alone and that is not empty. *)
Definition endsSolid (t : string) : Prop := Js.trimEnd t = t /\ t <> "".

(** The filter text the specification asks for, with [show] rendering the
    four numbers. *)
Definition filterText (show : Q -> string) (g : ColorGradingSettings) : string :=
  "saturate(" ++ show (saturation g) ++ "%) contrast(" ++ show (contrast g)
  ++ "%) brightness(" ++ show (brightness g) ++ "%) sepia(" ++ show (warmth g) ++ "%)".

(** The long edge of the two aspect-preserving presets. *)
Definition longEdge (p : Preset) : option Z :=
  match p with
  | hd => Some 1920%Z
  | uhd => Some 3840%Z
  | _ => None
  end.

(** The rule of the [hd] and [4k] presets for a source of aspect ratio [ar]:
    which edge is the long one, that the ratio is kept, and that the longer
    edge is [L], before rounding and on the rounded canvas. *)
Definition longEdgeRule (ar : Q) (L : Z) (tw th : Q) : Prop :=
  (1 <= ar -> tw == inject_Z L /\ th == inject_Z L / ar) /\
  (ar < 1 -> th == inject_Z L /\ tw == inject_Z L * ar) /\
  Qabs (tw / th - ar) <= 1 # 1000000 /\
  Qmax tw th == inject_Z L /\
  Z.max (Js.Math_round tw) (Js.Math_round th) = L.

(** The crop rectangle lies inside a source of the given size. *)
Definition insideSource (originalWidth originalHeight : Z) (c : CropRect) : Prop :=
  0 <= sx c /\ 0 <= sy c /\
  sx c + sWidth c <= inject_Z originalWidth /\
  sy c + sHeight c <= inject_Z originalHeight /\
  0 < sWidth c /\ 0 < sHeight c.

(** The crop rectangle has equal margins on opposite sides. *)
Definition centered (originalWidth originalHeight : Z) (c : CropRect) : Prop :=
  sx c == (inject_Z originalWidth - sWidth c) / 2 /\
  sy c == (inject_Z originalHeight - sHeight c) / 2.

(** The settings with another quality. *)
Definition withQuality (q : Q) (s : ExportSettings) : ExportSettings :=
  {| format := format s; quality := q;
     colorGrading := colorGrading s; resolution := resolution s |}.

(** A custom resolution request. *)
Definition customResolution (w h : option Q) (locked : bool) : ResolutionSettings :=
  {| preset := custom; width := w; height := h; aspectRatioLocked := locked |}.

(** A request for a preset that takes no dimensions. *)
Definition presetResolution (p : Preset) : ResolutionSettings :=
  {| preset := p; width := None; height := None; aspectRatioLocked := true |}.

(** Settings that differ from [initialExportSettings] in format and
    resolution only. *)
Definition exportWith (f : Format) (r : ResolutionSettings) : ExportSettings :=
  {| format := f; quality := 92;
     colorGrading := colorGrading initialExportSettings; resolution := r |}.

(** The fixed canvas of the three cropping presets. *)
Definition cropPresetSize (p : Preset) : option (Z * Z) :=
  match p with
  | square => Some (1080, 1080)%Z
  | portrait => Some (1080, 1920)%Z
  | landscape => Some (1920, 1080)%Z
  | _ => None
  end.

(** The encoder call and the file name agree with the requested format;
    [base] is the file name without its extension. *)
Definition encodedAs (base : string) (s : ExportSettings) (r : Rendering) : Prop :=
  match format s with
  | jpeg => mimeType r = "image/jpeg"
            /\ encoderQuality r = Some (quality s / 100)
            /\ filename r = base ++ ".jpeg"
  | png => mimeType r = "image/png"
           /\ encoderQuality r = None
           /\ filename r = base ++ ".png"
  end.

(** ** The image service ([services/geminiService]) *)

Module GeminiService.

(** [s.split(c)] for a one-character separator. *)
Fixpoint split (separator : ascii) (s : string) : list string :=
  match s with
  | EmptyString => [EmptyString]
  | String c rest =>
      if Ascii.eqb c separator then EmptyString :: split separator rest
      else match split separator rest with
           | piece :: pieces => String c piece :: pieces
           | [] => [String c EmptyString]
           end
  end.

(** The characters that [.] does not match, on 8-bit characters. *)
Definition isLineTerminator (c : ascii) : bool :=
  let n := nat_of_ascii c in (n =? 10)%nat || (n =? 13)%nat.

(** [(.*?);] tried at the start of [s]: the shortest run of characters
    other than line terminators that a [;] follows. *)
Fixpoint lazyUpToSemicolon (s : string) : option string :=
  match s with
  | EmptyString => None
  | String c rest =>
      if Ascii.eqb c ";" then Some EmptyString
      else if isLineTerminator c then None
      else option_map (String c) (lazyUpToSemicolon rest)
  end.

(** [header.match(/:(.*?);/)?.[1]]: the group of the leftmost match. *)
Fixpoint matchMimeType (header : string) : option string :=
  match header with
  | EmptyString => None
  | String c rest =>
      if Ascii.eqb c ":" then
        match lazyUpToSemicolon rest with
        | Some group => Some group
        | None => matchMimeType rest
        end
      else matchMimeType rest
  end.

(** [hay.includes(needle)] *)
Fixpoint includes (needle hay : string) : bool :=
  String.prefix needle hay
  || match hay with
     | String _ rest => includes needle rest
     | EmptyString => false
     end.

(** A thrown or rejected value: an [Error] with its message, or anything
    else (such as the event a [FileReader] reports). *)
Inductive Thrown :=
| ErrorWith (message : string)
| NotAnError.

(** How a promise of a string settles. *)
Inductive Promise :=
| Resolves (value : string)
| Rejects (reason : Thrown).

Record InlineData := { data : option string; mimeType : option string }.

(** A part of a response; only [inlineData] is read. *)
Record Part := { inlineData : option InlineData }.

(** What the handlers read of a response: [parts] is [None] when
    [response.candidates[0].content.parts] cannot be read or iterated, and
    [text] is [None] when [response.text] is [undefined]; both raise a
    [TypeError]. *)
Record GenerateContentResponse := {
  parts : option (list Part);
  text : option string
}.

(** How [ai.models.generateContent] settles. *)
Inductive ApiCall :=
| ApiRejects (reason : Thrown)
| ApiResponds (response : GenerateContentResponse).

(** What a [FileReader] reports for [readAsDataURL]: [loadend] with a
    string result, [loadend] with another result before any error event,
    or an error event. *)
Inductive FileRead :=
| ReadText (result : string)
| ReadOther
| ReadFails.

Definition doubleQuote : string := String "034"%char EmptyString.

Definition notConfigured : string :=
  "API Key not configured. Please set the API_KEY environment variable.".
Definition invalidApiKey : string :=
  "Invalid API Key. Please check your environment configuration.".
Definition generateFailed : string :=
  "Failed to generate image due to an API error.".
Definition enhanceFailed : string :=
  "Failed to enhance image due to an API error.".
Definition invalidDataUri : string :=
  "Invalid base64 image data URI for enhancement.".
Definition noMimeType : string :=
  "Could not extract mime type from data URI for enhancement.".

(** The loop over the parts: the data URI of the first part whose inline
    data has a string [data] and a string [mimeType]. *)
Fixpoint firstImage (ps : list Part) : option string :=
  match ps with
  | [] => None
  | part :: rest =>
      match inlineData part with
      | Some {| data := Some base64ImageBytes; mimeType := Some mime |} =>
          Some ("data:" ++ mime ++ ";base64," ++ base64ImageBytes)
      | _ => firstImage rest
      end
  end.

Section Calls.

(** The message of the [TypeError] the engine raises. *)
Variable typeErrorMessage : string.

(** The body of a [try] block after the call: the returned URI or what is
    thrown.  [textInstead] builds the message for a text-only response and
    [noImage] is the message for an empty one. *)
Definition readResponse (textInstead : string -> string) (noImage : string)
    (api : ApiCall) : Thrown + string :=
  match api with
  | ApiRejects reason => inl reason
  | ApiResponds response =>
      match parts response with
      | None => inl (ErrorWith typeErrorMessage)
      | Some ps =>
          match firstImage ps with
          | Some uri => inr uri
          | None =>
              match text response with
              | None => inl (ErrorWith typeErrorMessage)
              | Some t =>
                  let textResponse := Js.trim t in
                  if negb (String.eqb textResponse "")
                  then inl (ErrorWith (textInstead textResponse))
                  else inl (ErrorWith noImage)
              end
          end
      end
  end.

(** The [catch] block: every failure becomes one of two messages. *)
Definition rethrow (failed : string) (error : Thrown) : Thrown :=
  match error with
  | ErrorWith message =>
      if includes "API key not valid" message then ErrorWith invalidApiKey
      else ErrorWith failed
  | NotAnError => ErrorWith failed
  end.

Definition settle (failed : string) (r : Thrown + string) : Promise :=
  match r with
  | inr uri => Resolves uri
  | inl error => Rejects (rethrow failed error)
  end.

(** [fileToInlineData]: the promise rejects, or resolves to the file's type
    and the second comma-separated piece of the data URL ([None] when there
    is none). *)
Definition fileToInlineData (fileType : string) (read : FileRead) : Thrown + InlineData :=
  match read with
  | ReadText result =>
      inr {| mimeType := Some fileType; data := nth_error (split "," result) 1 |}
  | ReadOther => inl (ErrorWith "Failed to read file.")
  | ReadFails => inl NotAnError
  end.

Definition generateFashionImage (isApiKeySet : bool) (fileType : string)
    (read : FileRead) (api : ApiCall) : Promise :=
  if negb isApiKeySet then Rejects (ErrorWith notConfigured) else
  match fileToInlineData fileType read with
  | inl reason => Rejects reason
  | inr imagePart =>
      settle generateFailed
        (readResponse
           (fun textResponse =>
              "The model returned a text response instead of an image: "
              ++ doubleQuote ++ textResponse ++ doubleQuote)
           "No image was generated. The model response did not contain image data."
           api)
  end.

(** The checks of [enhanceImage] on its argument, before the call: the
    inline data it sends, or the error it throws. *)
Definition enhanceRequest (base64ImageDataUri : string) : Thrown + InlineData :=
  let pieces := split "," base64ImageDataUri in
  match nth_error pieces 0, nth_error pieces 1 with
  | Some header, Some data =>
      if String.eqb header "" || String.eqb data "" then inl (ErrorWith invalidDataUri)
      else match matchMimeType header with
           | Some mimeType =>
               if String.eqb mimeType "" then inl (ErrorWith noMimeType)
               else inr {| mimeType := Some mimeType; data := Some data |}
           | None => inl (ErrorWith noMimeType)
           end
  | _, _ => inl (ErrorWith invalidDataUri)
  end.

Definition enhanceImage (isApiKeySet : bool) (base64ImageDataUri : string)
    (api : ApiCall) : Promise :=
  if negb isApiKeySet then Rejects (ErrorWith notConfigured) else
  match enhanceRequest base64ImageDataUri with
  | inl reason => Rejects reason
  | inr imagePart =>
      settle enhanceFailed
        (readResponse
           (fun textResponse =>
              "The enhancement model returned text instead of an image: "
              ++ doubleQuote ++ textResponse ++ doubleQuote)
           "Enhancement failed. The model response did not contain image data."
           api)
  end.

End Calls.

End GeminiService.

(** ** Component state of the two [App] components *)

(** Truthiness of a [string | null]: [null] and the empty string are falsy. *)
Definition present (v : option string) : bool :=
  match v with
  | Some s => negb (String.eqb s "")
  | None => false
  end.

(** [err instanceof Error ? err.message : fallback] *)
Definition messageOf (fallback : string) (err : GeminiService.Thrown) : string :=
  match err with
  | GeminiService.ErrorWith message => message
  | GeminiService.NotAnError => fallback
  end.

(** The component that persists its settings.  An [async] handler is split
    at its [await]: [..._begin] runs up to the call and [..._settle] is the
    continuation, run on the state of the moment the promise settles. *)
Module PersistingApp.

Section Component.

Variable File : Type.
Variable createObjectURL : File -> string.

Record State := {
  sourceImage : option File;
  sourceImageUrl : option string;
  scenePrompt : string;
  generatedImage : option string;
  isLoading : bool;
  isEnhancing : bool;
  error : option string;
  enhancedImage : option string;
  showExportModal : bool;
  exportSettings : ExportSettings
}.

Definition initialState (loaded : ExportSettings) : State := {|
  sourceImage := None; sourceImageUrl := None;
  scenePrompt := "A woman standing confidently on a balcony overlooking the sea at sunset.";
  generatedImage := None; isLoading := false; isEnhancing := false;
  error := None; enhancedImage := None; showExportModal := false;
  exportSettings := loaded
|}.

Definition handleImageUpload (file : File) (st : State) : State :=
  {| sourceImage := Some file; sourceImageUrl := Some (createObjectURL file);
     scenePrompt := scenePrompt st; generatedImage := None;
     isLoading := isLoading st; isEnhancing := isEnhancing st; error := error st;
     enhancedImage := enhancedImage st; showExportModal := showExportModal st;
     exportSettings := exportSettings st |}.

Definition setScenePrompt (value : string) (st : State) : State :=
  {| sourceImage := sourceImage st; sourceImageUrl := sourceImageUrl st;
     scenePrompt := value; generatedImage := generatedImage st;
     isLoading := isLoading st; isEnhancing := isEnhancing st; error := error st;
     enhancedImage := enhancedImage st; showExportModal := showExportModal st;
     exportSettings := exportSettings st |}.

Definition setError (value : option string) (st : State) : State :=
  {| sourceImage := sourceImage st; sourceImageUrl := sourceImageUrl st;
     scenePrompt := scenePrompt st; generatedImage := generatedImage st;
     isLoading := isLoading st; isEnhancing := isEnhancing st; error := value;
     enhancedImage := enhancedImage st; showExportModal := showExportModal st;
     exportSettings := exportSettings st |}.

Definition setShowExportModal (value : bool) (st : State) : State :=
  {| sourceImage := sourceImage st; sourceImageUrl := sourceImageUrl st;
     scenePrompt := scenePrompt st; generatedImage := generatedImage st;
     isLoading := isLoading st; isEnhancing := isEnhancing st; error := error st;
     enhancedImage := enhancedImage st; showExportModal := value;
     exportSettings := exportSettings st |}.

Definition setExportSettings (value : ExportSettings) (st : State) : State :=
  {| sourceImage := sourceImage st; sourceImageUrl := sourceImageUrl st;
     scenePrompt := scenePrompt st; generatedImage := generatedImage st;
     isLoading := isLoading st; isEnhancing := isEnhancing st; error := error st;
     enhancedImage := enhancedImage st; showExportModal := showExportModal st;
     exportSettings := value |}.

(** [handleGenerate] up to [await generateFashionImage(...)]; without a
    source image it only reports the error and no call is made. *)
Definition handleGenerate_begin (st : State) : State :=
  match sourceImage st with
  | None => setError (Some "Please upload a source image first.") st
  | Some _ =>
      {| sourceImage := sourceImage st; sourceImageUrl := sourceImageUrl st;
         scenePrompt := scenePrompt st; generatedImage := None;
         isLoading := true; isEnhancing := isEnhancing st; error := None;
         enhancedImage := enhancedImage st; showExportModal := showExportModal st;
         exportSettings := exportSettings st |}
  end.

(** The rest of [handleGenerate]: [try], [catch] and [finally]. *)
Definition handleGenerate_settle (p : GeminiService.Promise) (st : State) : State :=
  {| sourceImage := sourceImage st; sourceImageUrl := sourceImageUrl st;
     scenePrompt := scenePrompt st;
     generatedImage := match p with
                       | GeminiService.Resolves imageUrl => Some imageUrl
                       | GeminiService.Rejects _ => generatedImage st
                       end;
     isLoading := false; isEnhancing := isEnhancing st;
     error := match p with
              | GeminiService.Resolves _ => error st
              | GeminiService.Rejects err => Some (messageOf "An unknown error occurred." err)
              end;
     enhancedImage := enhancedImage st; showExportModal := showExportModal st;
     exportSettings := exportSettings st |}.

Definition handleEnhance_begin (st : State) : State :=
  if negb (present (generatedImage st))
  then setError (Some "No generated image to enhance.") st
  else {| sourceImage := sourceImage st; sourceImageUrl := sourceImageUrl st;
          scenePrompt := scenePrompt st; generatedImage := generatedImage st;
          isLoading := isLoading st; isEnhancing := true; error := None;
          enhancedImage := enhancedImage st; showExportModal := showExportModal st;
          exportSettings := exportSettings st |}.

Definition handleEnhance_settle (p : GeminiService.Promise) (st : State) : State :=
  {| sourceImage := sourceImage st; sourceImageUrl := sourceImageUrl st;
     scenePrompt := scenePrompt st; generatedImage := generatedImage st;
     isLoading := isLoading st; isEnhancing := false;
     error := match p with
              | GeminiService.Resolves _ => error st
              | GeminiService.Rejects err => Some (messageOf "Failed to enhance image." err)
              end;
     enhancedImage := match p with
                      | GeminiService.Resolves enhancedImageUrl => Some enhancedImageUrl
                      | GeminiService.Rejects _ => enhancedImage st
                      end;
     showExportModal := match p with
                        | GeminiService.Resolves _ => true
                        | GeminiService.Rejects _ => showExportModal st
                        end;
     exportSettings := exportSettings st |}.

Variable numberToString : Q -> string.

(** What [handleFinalDownload] does when it is run in state [st], the image
    decoding as [decoded]. *)
Definition finalDownloadOutcome (decoded : Decoded) (ctx : bool) (st : State) : Outcome :=
  handleFinalDownload numberToString
    (if present (enhancedImage st) then Some decoded else None)
    ctx (exportSettings st).

(** Its effect on the state: without an image only the error is set; the
    other paths close the modal, the failing ones after setting the error. *)
Definition handleFinalDownload_state (decoded : Decoded) (ctx : bool) (st : State) : State :=
  match finalDownloadOutcome decoded ctx st with
  | ErrorShown msg =>
      if present (enhancedImage st)
      then setShowExportModal false (setError (Some msg) st)
      else setError (Some msg) st
  | Downloaded _ => setShowExportModal false st
  | Nothing => st
  end.

(** The disabled state of the Generate button. *)
Definition generateDisabled (st : State) : bool :=
  isLoading st || isEnhancing st
  || match sourceImage st with Some _ => false | None => true end.

Inductive Event :=
| Upload (file : File)
| PromptChanged (value : string)
| GenerateClicked
| GenerateSettled (p : GeminiService.Promise)
| EnhanceClicked
| EnhanceSettled (p : GeminiService.Promise)
| ModalClosed
| SettingsChanged (value : ExportSettings)
| DownloadClicked (decoded : Decoded) (ctx : bool).

Definition step (st : State) (e : Event) : State :=
  match e with
  | Upload file => handleImageUpload file st
  | PromptChanged value => setScenePrompt value st
  | GenerateClicked => handleGenerate_begin st
  | GenerateSettled p => handleGenerate_settle p st
  | EnhanceClicked => handleEnhance_begin st
  | EnhanceSettled p => handleEnhance_settle p st
  | ModalClosed => setShowExportModal false st
  | SettingsChanged value => setExportSettings value st
  | DownloadClicked decoded ctx => handleFinalDownload_state decoded ctx st
  end.

Definition run (events : list Event) (st : State) : State :=
  fold_left step events st.

(** The services never resolve to an empty string in this run. *)
Definition resolvesNonEmpty (e : Event) : Prop :=
  match e with
  | GenerateSettled (GeminiService.Resolves v)
  | EnhanceSettled (GeminiService.Resolves v) => v <> ""
  | _ => True
  end.

End Component.

End PersistingApp.

(** The component that resets its settings on every enhancement. *)
Module ResettingApp.

Section Component.

Variable File : Type.
Variable createObjectURL : File -> string.

Record State := {
  uploadedImageFile : option File;
  uploadedImageUrl : option string;
  scenePrompt : string;
  generatedImageUrl : option string;
  enhancedImageUrl : option string;
  isLoading : bool;
  isEnhancing : bool;
  error : option string;
  isExportModalOpen : bool;
  exportSettings : ExportSettings
}.

Definition initialState : State := {|
  uploadedImageFile := None; uploadedImageUrl := None; scenePrompt := "";
  generatedImageUrl := None; enhancedImageUrl := None;
  isLoading := false; isEnhancing := false; error := None;
  isExportModalOpen := false; exportSettings := initialExportSettings
|}.

Definition handleImageUpload (file : File) (st : State) : State :=
  {| uploadedImageFile := Some file; uploadedImageUrl := Some (createObjectURL file);
     scenePrompt := scenePrompt st; generatedImageUrl := None;
     enhancedImageUrl := enhancedImageUrl st;
     isLoading := isLoading st; isEnhancing := isEnhancing st; error := None;
     isExportModalOpen := isExportModalOpen st; exportSettings := exportSettings st |}.

Definition setScenePrompt (value : string) (st : State) : State :=
  {| uploadedImageFile := uploadedImageFile st; uploadedImageUrl := uploadedImageUrl st;
     scenePrompt := value; generatedImageUrl := generatedImageUrl st;
     enhancedImageUrl := enhancedImageUrl st;
     isLoading := isLoading st; isEnhancing := isEnhancing st; error := error st;
     isExportModalOpen := isExportModalOpen st; exportSettings := exportSettings st |}.

Definition setError (value : option string) (st : State) : State :=
  {| uploadedImageFile := uploadedImageFile st; uploadedImageUrl := uploadedImageUrl st;
     scenePrompt := scenePrompt st; generatedImageUrl := generatedImageUrl st;
     enhancedImageUrl := enhancedImageUrl st;
     isLoading := isLoading st; isEnhancing := isEnhancing st; error := value;
     isExportModalOpen := isExportModalOpen st; exportSettings := exportSettings st |}.

Definition setIsExportModalOpen (value : bool) (st : State) : State :=
  {| uploadedImageFile := uploadedImageFile st; uploadedImageUrl := uploadedImageUrl st;
     scenePrompt := scenePrompt st; generatedImageUrl := generatedImageUrl st;
     enhancedImageUrl := enhancedImageUrl st;
     isLoading := isLoading st; isEnhancing := isEnhancing st; error := error st;
     isExportModalOpen := value; exportSettings := exportSettings st |}.

Definition setExportSettings (value : ExportSettings) (st : State) : State :=
  {| uploadedImageFile := uploadedImageFile st; uploadedImageUrl := uploadedImageUrl st;
     scenePrompt := scenePrompt st; generatedImageUrl := generatedImageUrl st;
     enhancedImageUrl := enhancedImageUrl st;
     isLoading := isLoading st; isEnhancing := isEnhancing st; error := error st;
     isExportModalOpen := isExportModalOpen st; exportSettings := value |}.

(** [!uploadedImageFile || !scenePrompt.trim()] *)
Definition cannotGenerate (st : State) : bool :=
  match uploadedImageFile st with Some _ => false | None => true end
  || String.eqb (Js.trim (scenePrompt st)) "".

(** [handleGenerateClick] up to the [await]. *)
Definition handleGenerateClick_begin (st : State) : State :=
  if cannotGenerate st
  then setError (Some "Please upload an image and provide a scene description.") st
  else {| uploadedImageFile := uploadedImageFile st; uploadedImageUrl := uploadedImageUrl st;
          scenePrompt := scenePrompt st; generatedImageUrl := None;
          enhancedImageUrl := enhancedImageUrl st;
          isLoading := true; isEnhancing := isEnhancing st; error := None;
          isExportModalOpen := isExportModalOpen st; exportSettings := exportSettings st |}.

Definition handleGenerateClick_settle (p : GeminiService.Promise) (st : State) : State :=
  {| uploadedImageFile := uploadedImageFile st; uploadedImageUrl := uploadedImageUrl st;
     scenePrompt := scenePrompt st;
     generatedImageUrl := match p with
                          | GeminiService.Resolves resultUrl => Some resultUrl
                          | GeminiService.Rejects _ => generatedImageUrl st
                          end;
     enhancedImageUrl := enhancedImageUrl st;
     isLoading := false; isEnhancing := isEnhancing st;
     error := match p with
              | GeminiService.Resolves _ => error st
              | GeminiService.Rejects e =>
                  Some (messageOf "An unknown error occurred during image generation." e)
              end;
     isExportModalOpen := isExportModalOpen st; exportSettings := exportSettings st |}.

(** [handleEnhanceClick] up to the [await]; it returns at once without a
    generated image. *)
Definition handleEnhanceClick_begin (st : State) : State :=
  if negb (present (generatedImageUrl st)) then st
  else {| uploadedImageFile := uploadedImageFile st; uploadedImageUrl := uploadedImageUrl st;
          scenePrompt := scenePrompt st; generatedImageUrl := generatedImageUrl st;
          enhancedImageUrl := enhancedImageUrl st;
          isLoading := isLoading st; isEnhancing := true; error := None;
          isExportModalOpen := isExportModalOpen st; exportSettings := exportSettings st |}.

Definition handleEnhanceClick_settle (p : GeminiService.Promise) (st : State) : State :=
  match p with
  | GeminiService.Resolves resultUrl =>
      {| uploadedImageFile := uploadedImageFile st; uploadedImageUrl := uploadedImageUrl st;
         scenePrompt := scenePrompt st; generatedImageUrl := generatedImageUrl st;
         enhancedImageUrl := Some resultUrl;
         isLoading := isLoading st; isEnhancing := false; error := error st;
         isExportModalOpen := true; exportSettings := initialExportSettings |}
  | GeminiService.Rejects e =>
      {| uploadedImageFile := uploadedImageFile st; uploadedImageUrl := uploadedImageUrl st;
         scenePrompt := scenePrompt st; generatedImageUrl := generatedImageUrl st;
         enhancedImageUrl := enhancedImageUrl st;
         isLoading := isLoading st; isEnhancing := false;
         error := Some (messageOf "An unknown error occurred during image enhancement." e);
         isExportModalOpen := isExportModalOpen st; exportSettings := exportSettings st |}
  end.

Variable numberToString : Q -> string.

Definition downloadOutcome (decoded : Decoded) (ctx : bool) (st : State) : Outcome :=
  handleDownload numberToString
    (if present (enhancedImageUrl st) then Some decoded else None)
    ctx (exportSettings st).

(** [handleDownload] closes the modal at the end of [onload] and changes
    nothing else. *)
Definition handleDownload_state (decoded : Decoded) (ctx : bool) (st : State) : State :=
  match downloadOutcome decoded ctx st with
  | Downloaded _ => setIsExportModalOpen false st
  | ErrorShown _ | Nothing => st
  end.

(** The disabled state of the Generate button. *)
Definition generateDisabled (st : State) : bool :=
  isLoading st
  || match uploadedImageFile st with Some _ => false | None => true end
  || String.eqb (Js.trim (scenePrompt st)) "".

Inductive Event :=
| Upload (file : File)
| PromptChanged (value : string)
| GenerateClicked
| GenerateSettled (p : GeminiService.Promise)
| EnhanceClicked
| EnhanceSettled (p : GeminiService.Promise)
| ModalClosed
| SettingsChanged (value : ExportSettings)
| DownloadClicked (decoded : Decoded) (ctx : bool).

Definition step (st : State) (e : Event) : State :=
  match e with
  | Upload file => handleImageUpload file st
  | PromptChanged value => setScenePrompt value st
  | GenerateClicked => handleGenerateClick_begin st
  | GenerateSettled p => handleGenerateClick_settle p st
  | EnhanceClicked => handleEnhanceClick_begin st
  | EnhanceSettled p => handleEnhanceClick_settle p st
  | ModalClosed => setIsExportModalOpen false st
  | SettingsChanged value => setExportSettings value st
  | DownloadClicked decoded ctx => handleDownload_state decoded ctx st
  end.

Definition run (events : list Event) (st : State) : State :=
  fold_left step events st.

Definition resolvesNonEmpty (e : Event) : Prop :=
  match e with
  | GenerateSettled (GeminiService.Resolves v)
  | EnhanceSettled (GeminiService.Resolves v) => v <> ""
  | _ => True
  end.

End Component.

End ResettingApp.

(** ** The image panel ([components/ImageDisplay]) *)

Module ImageDisplay.

(** The properties of the component; [onEnhanceClick] tells whether the
    handler is passed. *)
Record Props := {
  imageUrl : option string;
  isLoading : bool;
  isEnhancing : bool;
  onEnhanceClick : bool
}.

Definition showLoading (p : Props) : bool := isLoading p || isEnhancing p.

(** The three alternatives of the panel: the loading overlay, the image and
    the placeholder. *)
Definition showsOverlay (p : Props) : bool := showLoading p.

Definition showsImage (p : Props) : bool :=
  present (imageUrl p) && negb (showLoading p).

Definition showsPlaceholder (p : Props) : bool :=
  if present (imageUrl p) && negb (showLoading p) then false
  else negb (showLoading p).

(** The Enhance button and its [disabled] attribute. *)
Definition showsEnhanceButton (p : Props) : bool :=
  present (imageUrl p) && onEnhanceClick p.

Definition enhanceDisabled (p : Props) : bool := isLoading p || isEnhancing p.

(** *** Zoom and pan of the interactive panel *)

Record Point := { x : Q; y : Q }.

Record State := {
  scale : Q;
  position : Point;
  isDragging : bool;
  startMousePos : Point;   (* [startMousePos.current] *)
  startImgPos : Point      (* [startImgPos.current] *)
}.

Definition origin : Point := {| x := 0; y := 0 |}.

Definition initialState : State :=
  {| scale := 1; position := origin; isDragging := false;
     startMousePos := origin; startImgPos := origin |}.

Definition isInteractive (p : Props) : bool := onEnhanceClick p.

Definition Math_min (a b : Q) : Q := if Qle_bool a b then a else b.
Definition Math_max (a b : Q) : Q := if Qle_bool b a then a else b.

(** [Math.max(1, Math.min(newScale, 5))] *)
Definition clampScale (newScale : Q) : Q := Math_max 1 (Math_min newScale 5).

(** [handleWheel]; [container] is the top left corner of the container's
    bounding rectangle, [None] when [containerRef.current] is [null]. *)
Definition handleWheel (p : Props) (container : option Point)
    (deltaY clientX clientY : Q) (st : State) : State :=
  match container with
  | None => st
  | Some rect =>
      if negb (isInteractive p) || isDragging st then st else
      let zoomSpeed := 0.1 in
      let newScale := scale st - (deltaY * zoomSpeed * 0.1) in
      let clampedScale := clampScale newScale in
      if Js.ltb (Js.Math_abs (clampedScale - scale st)) 0.01 then st else
      let mouseX := clientX - x rect in
      let mouseY := clientY - y rect in
      let newPosX := mouseX - ((mouseX - x (position st)) / scale st) * clampedScale in
      let newPosY := mouseY - ((mouseY - y (position st)) / scale st) * clampedScale in
      {| scale := clampedScale;
         position := if Qeq_bool clampedScale 1 then origin
                     else {| x := newPosX; y := newPosY |};
         isDragging := isDragging st;
         startMousePos := startMousePos st; startImgPos := startImgPos st |}
  end.

Definition handleMouseDown (p : Props) (clientX clientY : Q) (st : State) : State :=
  if negb (isInteractive p) || Qle_bool (scale st) 1 || showLoading p then st else
  {| scale := scale st; position := position st; isDragging := true;
     startMousePos := {| x := clientX; y := clientY |};
     startImgPos := position st |}.

Definition handleMouseMove (p : Props) (clientX clientY : Q) (st : State) : State :=
  if negb (isInteractive p) || negb (isDragging st) then st else
  let dx := clientX - x (startMousePos st) in
  let dy := clientY - y (startMousePos st) in
  {| scale := scale st;
     position := {| x := x (startImgPos st) + dx; y := y (startImgPos st) + dy |};
     isDragging := isDragging st;
     startMousePos := startMousePos st; startImgPos := startImgPos st |}.

Definition handleMouseUpOrLeave (p : Props) (st : State) : State :=
  if negb (isInteractive p) || negb (isDragging st) then st else
  {| scale := scale st; position := position st; isDragging := false;
     startMousePos := startMousePos st; startImgPos := startImgPos st |}.

Definition handleResetZoom (st : State) : State :=
  {| scale := 1; position := origin; isDragging := isDragging st;
     startMousePos := startMousePos st; startImgPos := startImgPos st |}.

(** The Reset Zoom button is rendered only while zoomed in. *)
Definition showsResetButton (p : Props) (st : State) : bool :=
  isInteractive p && Js.gtb (scale st) 1 && negb (showLoading p).

Definition cursorStyle (p : Props) (st : State) : string :=
  if isInteractive p && present (imageUrl p) && negb (showLoading p) then
    if Js.gtb (scale st) 1 then (if isDragging st then "grabbing" else "grab")
    else "zoom-in"
  else "default".

Inductive Event :=
| Wheel (container : option Point) (deltaY clientX clientY : Q)
| MouseDown (clientX clientY : Q)
| MouseMove (clientX clientY : Q)
| MouseUpOrLeave
| ResetZoom.

Definition step (p : Props) (st : State) (e : Event) : State :=
  match e with
  | Wheel container deltaY clientX clientY =>
      handleWheel p container deltaY clientX clientY st
  | MouseDown clientX clientY => handleMouseDown p clientX clientY st
  | MouseMove clientX clientY => handleMouseMove p clientX clientY st
  | MouseUpOrLeave => handleMouseUpOrLeave p st
  | ResetZoom => handleResetZoom st
  end.

Definition run (p : Props) (events : list Event) (st : State) : State :=
  fold_left (step p) events st.

Definition isMouseEvent (e : Event) : bool :=
  match e with
  | MouseDown _ _ | MouseMove _ _ | MouseUpOrLeave => true
  | Wheel _ _ _ _ | ResetZoom => false
  end.

End ImageDisplay.

(** ** Further vocabulary *)

(** The crop rectangle with the two axes exchanged. *)
Definition transposed (c : CropRect) : CropRect :=
  {| sx := sy c; sy := sx c; sWidth := sHeight c; sHeight := sWidth c |}.

(** Two crop rectangles that differ by at most a thousandth of a pixel in
    each coordinate. *)
Definition nearRect (c d : CropRect) : Prop :=
  Qabs (sx c - sx d) <= 1 # 1000 /\ Qabs (sy c - sy d) <= 1 # 1000 /\
  Qabs (sWidth c - sWidth d) <= 1 # 1000 /\ Qabs (sHeight c - sHeight d) <= 1 # 1000.

(** Neither a width nor a height is requested. *)
Definition noDimensions (r : ResolutionSettings) : Prop :=
  Js.truthy (width r) = false /\ Js.truthy (height r) = false.

(** The stored field when there is one, else the default. *)
Definition storedOr (defaults stored : object) (k : string) : option json :=
  match stored !! k with
  | Some v => Some v
  | None => defaults !! k
  end.

(** A stored group whose spread contributes no property: a missing one,
    [null], a boolean, a number or the empty string. *)
Definition spreadsNothing (v : option json) : Prop :=
  match v with
  | None | Some JNull | Some (JBool _) | Some (JNum _) => True
  | Some (JStr s) => s = ""
  | Some (JArr _) | Some (JObj _) => False
  end.

(** The stored record passes the validation of [loadInitialSettings]. *)
Definition accepts (m : object) : bool :=
  match mergeSettings (JObj m) with
  | Some merged => basicValidation merged
  | None => false
  end.

(** Every key of [d] is a key of [r]. *)
Definition hasKeysOf (d r : object) : Prop :=
  forall k : string, is_Some (d !! k) -> is_Some (r !! k).

(** The character does not occur in the string. *)
Fixpoint absent (c : ascii) (s : string) : Prop :=
  match s with
  | EmptyString => True
  | String d rest => d <> c /\ absent c rest
  end.

(** The string has no line terminator. *)
Fixpoint singleLine (s : string) : Prop :=
  match s with
  | EmptyString => True
  | String d rest => GeminiService.isLineTerminator d = false /\ singleLine rest
  end.

(** The string consists of white space only. *)
Fixpoint blank (s : string) : Prop :=
  match s with
  | EmptyString => True
  | String d rest => Js.isWhiteSpace d = true /\ blank rest
  end.

(** A part the response loop passes over. *)
Definition unusable (part : GeminiService.Part) : Prop :=
  match GeminiService.inlineData part with
  | Some {| GeminiService.data := Some _; GeminiService.mimeType := Some _ |} => False
  | _ => True
  end.

(** * Properties *)

(** ** Strings and trimming *)

Lemma append_assoc (a b c : string) : (a ++ b) ++ c = a ++ (b ++ c).
Proof.
  induction a as [|x a IH]; [reflexivity|].
  change (String x ((a ++ b) ++ c) = String x (a ++ (b ++ c))).
  now rewrite IH.
Qed.

Lemma endsSolid_app (s t : string) : endsSolid t -> endsSolid (s ++ t).
Proof.
  intros [Ht Hne]. induction s as [|c s [IH1 IH2]]; [now split|].
  split; [|discriminate].
  change (Js.trimEnd (String c (s ++ t)) = String c (s ++ t)).
  simpl. rewrite IH1.
  destruct (s ++ t) eqn:E; [contradiction | reflexivity].
Qed.

Lemma endsSolid_paren : endsSolid "%)".
Proof. split; [reflexivity | discriminate]. Qed.

Lemma filterText_solid show g : endsSolid (filterText show g).
Proof.
  unfold filterText.
  repeat (first [ apply endsSolid_paren | apply endsSolid_app ]).
Qed.

Lemma getCanvasFilter_text show g : getCanvasFilter show g = filterText show g.
Proof.
  unfold getCanvasFilter, Js.trim.
  replace ((((("" ++ "saturate(" ++ show (saturation g) ++ "%) ")
                ++ "contrast(" ++ show (contrast g) ++ "%) ")
               ++ "brightness(" ++ show (brightness g) ++ "%) ")
              ++ "sepia(" ++ show (warmth g) ++ "%)"))
    with (filterText show g).
  - change (Js.trimStart (filterText show g)) with (filterText show g).
    apply filterText_solid.
  - unfold filterText. change ("" ++ ?x) with x.
    rewrite !append_assoc. reflexivity.
Qed.

Section HandlerFacts.

Variable numberToString : Q -> string.

Lemma finalOnload_downloads s img :
  exists r, finalOnload numberToString true s img = Downloaded r
    /\ canvasWidth r = Js.Math_round (FinalDownload.targetWidth
         (FinalDownload.resolve (imgWidth img) (imgHeight img) (resolution s)))
    /\ canvasHeight r = Js.Math_round (FinalDownload.targetHeight
         (FinalDownload.resolve (imgWidth img) (imgHeight img) (resolution s)))
    /\ filter r = filterText numberToString (colorGrading s)
    /\ drawn r =
         (if FinalDownload.requiresCropping
               (FinalDownload.resolve (imgWidth img) (imgHeight img) (resolution s))
          then DrawRegion (FinalDownload.computeCropRect (imgWidth img) (imgHeight img)
                             (canvasWidth r) (canvasHeight r))
          else DrawWhole)
    /\ mimeType r = "image/" ++ formatName (format s)
    /\ encoderQuality r = match format s with
                          | jpeg => Some (quality s / 100)
                          | png => None
                          end
    /\ filename r = "ai-fashion-photoshoot-enhanced." ++ formatName (format s).
Proof.
  unfold finalOnload. simpl negb. cbv iota.
  destruct (format s); eexists; (split; [reflexivity|]); simpl;
    rewrite getCanvasFilter_text; repeat split; reflexivity.
Qed.

Lemma downloadOnload_downloads s img :
  exists r, downloadOnload numberToString true s img = Downloaded r
    /\ canvasWidth r = Js.Math_round (Download.targetWidth
         (Download.resolve (imgWidth img) (imgHeight img) (resolution s)))
    /\ canvasHeight r = Js.Math_round (Download.targetHeight
         (Download.resolve (imgWidth img) (imgHeight img) (resolution s)))
    /\ filter r = filterText numberToString (colorGrading s)
    /\ drawn r = DrawWhole
    /\ mimeType r = "image/" ++ formatName (format s)
    /\ encoderQuality r = match format s with
                          | jpeg => Some (quality s / 100)
                          | png => None
                          end
    /\ filename r = "ai-fashion-studio." ++ formatName (format s).
Proof.
  unfold downloadOnload. simpl negb. cbv iota.
  eexists; split; [reflexivity|]. simpl. repeat split; reflexivity.
Qed.

End HandlerFacts.

(** ** Arithmetic on numbers *)

Lemma geb_true (x y : Q) : Js.geb x y = true <-> y <= x.
Proof. unfold Js.geb. apply Qle_bool_iff. Qed.

Lemma geb_false (x y : Q) : Js.geb x y = false <-> x < y.
Proof.
  unfold Js.geb. split; intros E.
  - apply Qnot_le_lt. intros L. apply Qle_bool_iff in L. congruence.
  - destruct (Qle_bool y x) eqn:B; [|reflexivity].
    apply Qle_bool_iff in B. lra.
Qed.

Lemma gtb_true (x y : Q) : Js.gtb x y = true <-> y < x.
Proof.
  unfold Js.gtb. rewrite Bool.negb_true_iff. apply (geb_false y x).
Qed.

Lemma gtb_false (x y : Q) : Js.gtb x y = false <-> x <= y.
Proof.
  unfold Js.gtb. rewrite Bool.negb_false_iff. apply Qle_bool_iff.
Qed.

Lemma ltb_true (x y : Q) : Js.ltb x y = true <-> x < y.
Proof. apply (gtb_true y x). Qed.

Lemma ltb_false (x y : Q) : Js.ltb x y = false <-> y <= x.
Proof. apply (gtb_false y x). Qed.

Lemma inject_Z_pos (z : Z) : (0 < z)%Z -> 0 < inject_Z z.
Proof. intros Hz. rewrite Zlt_Qlt in Hz. exact Hz. Qed.

Lemma div_mul_cancel (x y : Q) : 0 < y -> x / y * y == x.
Proof. intros Hy. field. lra. Qed.

Lemma half (x : Q) : x / 2 == x * (1 # 2).
Proof. field. Qed.

Lemma within (e x y : Q) : 0 <= e -> x == y -> Qabs (x - y) <= e.
Proof.
  intros He E. rewrite E. unfold Qminus. rewrite Qplus_opp_r. exact He.
Qed.


Lemma div_pos (x y : Q) : 0 < x -> 0 < y -> 0 < x / y.
Proof.
  intros Hx Hy. pose proof (div_mul_cancel x y Hy) as E.
  set (q := x / y) in *. nra.
Qed.

Lemma round_inject_Z (z : Z) : Js.Math_round (inject_Z z) = z.
Proof.
  unfold Js.Math_round.
  pose proof (Qfloor_le (inject_Z z + (1 # 2))) as Hlo.
  pose proof (Qlt_floor (inject_Z z + (1 # 2))) as Hhi.
  set (f := Qfloor (inject_Z z + (1 # 2))) in *.
  rewrite inject_Z_plus in Hhi. change (inject_Z 1) with 1 in Hhi.
  assert (f < z + 1)%Z as H1.
  { rewrite Zlt_Qlt, inject_Z_plus. change (inject_Z 1) with 1. lra. }
  assert (z < f + 1)%Z as H2.
  { rewrite Zlt_Qlt, inject_Z_plus. change (inject_Z 1) with 1. lra. }
  lia.
Qed.

Lemma round_mono (x y : Q) : x <= y -> (Js.Math_round x <= Js.Math_round y)%Z.
Proof. intros Hxy. unfold Js.Math_round. apply Qfloor_resp_le. lra. Qed.

Lemma round_le_inject_Z (x : Q) (z : Z) : x <= inject_Z z -> (Js.Math_round x <= z)%Z.
Proof. intros Hx. rewrite <- (round_inject_Z z). now apply round_mono. Qed.

(** ** The aspect-preserving presets *)

Lemma longEdgeRule_landscape (ar : Q) (L : Z) :
  (0 < L)%Z -> 1 <= ar -> longEdgeRule ar L (inject_Z L) (inject_Z L / ar).
Proof.
  intros HL Har. apply inject_Z_pos in HL.
  assert (0 < ar) as Hpos by lra.
  pose proof (div_mul_cancel (inject_Z L) ar Hpos) as E.
  pose proof (div_pos _ _ HL Hpos) as Hq.
  assert (inject_Z L / (inject_Z L / ar) == ar) as Hratio.
  { field. split; lra. }
  assert (inject_Z L / ar <= inject_Z L) as Hle.
  { set (q := inject_Z L / ar) in *. nra. }
  unfold longEdgeRule. split; [|split; [|split; [|split]]].
  - intros _. split; reflexivity.
  - intros Hlt. lra.
  - rewrite Hratio. unfold Qminus. rewrite Qplus_opp_r. discriminate.
  - apply Q.max_l. exact Hle.
  - rewrite round_inject_Z. apply Z.max_l. apply round_le_inject_Z. exact Hle.
Qed.

Lemma longEdgeRule_portrait (ar : Q) (L : Z) :
  (0 < L)%Z -> 0 < ar -> ar < 1 -> longEdgeRule ar L (inject_Z L * ar) (inject_Z L).
Proof.
  intros HL Hpos Har. apply inject_Z_pos in HL.
  assert (inject_Z L * ar / inject_Z L == ar) as Hratio.
  { field. lra. }
  assert (inject_Z L * ar <= inject_Z L) as Hle by nra.
  unfold longEdgeRule. split; [|split; [|split; [|split]]].
  - intros Hge. lra.
  - intros _. split; reflexivity.
  - rewrite Hratio. unfold Qminus. rewrite Qplus_opp_r. discriminate.
  - apply Q.max_r. exact Hle.
  - rewrite round_inject_Z. apply Z.max_r. apply round_le_inject_Z. exact Hle.
Qed.

(** C5.  For a source of positive width and height and the preset [hd]
    (long edge 1920) or [4k] (long edge 3840), both handlers follow the long
    edge rule: with source aspect ratio at least 1 the target width is the
    long edge and the target height is the long edge divided by the ratio,
    otherwise the target height is the long edge and the target width is the
    long edge times the ratio; the target keeps the source aspect ratio
    (within 1e-6), the longer side of the rounded canvas is the long edge,
    and the image is drawn without cropping. *)
Theorem hd_4k_keep_aspect_ratio
    (show : Q -> string) (s : ExportSettings) (img : Image) (L : Z) :
  (0 < imgWidth img)%Z -> (0 < imgHeight img)%Z ->
  longEdge (preset (resolution s)) = Some L ->
  let ar := inject_Z (imgWidth img) / inject_Z (imgHeight img) in
  let a := FinalDownload.resolve (imgWidth img) (imgHeight img) (resolution s) in
  let b := Download.resolve (imgWidth img) (imgHeight img) (resolution s) in
  longEdgeRule ar L (FinalDownload.targetWidth a) (FinalDownload.targetHeight a) /\
  FinalDownload.requiresCropping a = false /\
  longEdgeRule ar L (Download.targetWidth b) (Download.targetHeight b) /\
  (exists r, handleFinalDownload show (Some (Loads img)) true s = Downloaded r
             /\ drawn r = DrawWhole
             /\ Z.max (canvasWidth r) (canvasHeight r) = L) /\
  (exists r, handleDownload show (Some (Loads img)) true s = Downloaded r
             /\ drawn r = DrawWhole
             /\ Z.max (canvasWidth r) (canvasHeight r) = L).
Proof.
  intros HW HH HL ar a b.
  assert (0 < ar) as Har
    by (apply div_pos; apply inject_Z_pos; assumption).
  assert ((0 < L)%Z) as HLpos
    by (destruct (preset (resolution s)); inversion HL; lia).
  assert (longEdgeRule ar L (FinalDownload.targetWidth a) (FinalDownload.targetHeight a)
          /\ FinalDownload.requiresCropping a = false) as [Ha Hcrop].
  { subst a. unfold FinalDownload.resolve. fold ar.
    destruct (preset (resolution s)); inversion HL; subst L;
      destruct (Js.geb ar 1) eqn:G; simpl; split; try reflexivity.
    - apply (longEdgeRule_landscape ar 1920); [lia | now apply geb_true].
    - apply (longEdgeRule_portrait ar 1920); [lia | assumption | now apply geb_false].
    - apply (longEdgeRule_landscape ar 3840); [lia | now apply geb_true].
    - apply (longEdgeRule_portrait ar 3840); [lia | assumption | now apply geb_false]. }
  assert (longEdgeRule ar L (Download.targetWidth b) (Download.targetHeight b)) as Hb.
  { subst b. unfold Download.resolve. fold ar.
    destruct (preset (resolution s)); inversion HL; subst L;
      destruct (Js.geb ar 1) eqn:G; simpl.
    - apply (longEdgeRule_landscape ar 1920); [lia | now apply geb_true].
    - apply (longEdgeRule_portrait ar 1920); [lia | assumption | now apply geb_false].
    - apply (longEdgeRule_landscape ar 3840); [lia | now apply geb_true].
    - apply (longEdgeRule_portrait ar 3840); [lia | assumption | now apply geb_false]. }
  split; [exact Ha|]. split; [exact Hcrop|]. split; [exact Hb|]. split.
  - destruct (finalOnload_downloads show s img)
      as (r & Hr & Hw & Hh & _ & Hd & _).
    exists r. split; [exact Hr|]. fold a in Hw, Hh, Hd. rewrite Hcrop in Hd.
    split; [exact Hd|]. rewrite Hw, Hh. apply Ha.
  - destruct (downloadOnload_downloads show s img)
      as (r & Hr & Hw & Hh & _ & Hd & _).
    exists r. split; [exact Hr|]. fold b in Hw, Hh.
    split; [exact Hd|]. rewrite Hw, Hh. apply Hb.
Qed.

Lemma hd_4k_keep_aspect_ratio_witness :
  let img := {| imgWidth := 1000; imgHeight := 2000 |} in
  let s := exportWith png (presetResolution hd) in
  (0 < imgWidth img)%Z /\ (0 < imgHeight img)%Z /\
  longEdge (preset (resolution s)) = Some 1920%Z /\
  longEdgeRule (inject_Z 1000 / inject_Z 2000) 1920
    (Download.targetWidth (Download.resolve 1000 2000 (resolution s)))
    (Download.targetHeight (Download.resolve 1000 2000 (resolution s))).
Proof.
  intros img s.
  split; [reflexivity|]. split; [reflexivity|]. split; [reflexivity|].
  exact (proj1 (proj2 (proj2
    (hd_4k_keep_aspect_ratio integerToString s img 1920%Z
       eq_refl eq_refl eq_refl)))).
Defined.

(** The scenario of the specification: a 1000 x 2000 source exported as
    [hd] gives a 960 x 1920 canvas, drawn whole. *)
Example hd_portrait_scenario :
  handleFinalDownload integerToString
    (Some (Loads {| imgWidth := 1000; imgHeight := 2000 |})) true
    (exportWith png (presetResolution hd))
  = Downloaded {| canvasWidth := 960; canvasHeight := 1920;
                  filter := "saturate(100%) contrast(100%) brightness(100%) sepia(0%)";
                  drawn := DrawWhole; mimeType := "image/png";
                  encoderQuality := None;
                  filename := "ai-fashion-photoshoot-enhanced.png" |}.
Proof. vm_compute. reflexivity. Qed.

(** ** The cropping presets *)

(** C4, amended.  In [handleFinalDownload] the presets [square], [portrait]
    and [landscape] give, for every source, the target 1080 x 1080,
    1080 x 1920 and 1920 x 1080 with [requiresCropping] set, and the canvas
    is filled from a crop rectangle.  [handleDownload] has no case for these
    presets: its canvas keeps the source dimensions and the image is drawn
    whole. *)
Theorem crop_presets_fixed_size
    (show : Q -> string) (s : ExportSettings) (img : Image) (w h : Z) :
  cropPresetSize (preset (resolution s)) = Some (w, h) ->
  let a := FinalDownload.resolve (imgWidth img) (imgHeight img) (resolution s) in
  FinalDownload.targetWidth a = inject_Z w /\
  FinalDownload.targetHeight a = inject_Z h /\
  FinalDownload.requiresCropping a = true /\
  (exists r, handleFinalDownload show (Some (Loads img)) true s = Downloaded r
             /\ canvasWidth r = w /\ canvasHeight r = h
             /\ drawn r = DrawRegion (FinalDownload.computeCropRect
                                        (imgWidth img) (imgHeight img) w h)) /\
  (exists r, handleDownload show (Some (Loads img)) true s = Downloaded r
             /\ canvasWidth r = imgWidth img /\ canvasHeight r = imgHeight img
             /\ drawn r = DrawWhole).
Proof.
  intros Hp a.
  assert (FinalDownload.targetWidth a = inject_Z w
          /\ FinalDownload.targetHeight a = inject_Z h
          /\ FinalDownload.requiresCropping a = true) as (Hw & Hh & Hc).
  { subst a. unfold FinalDownload.resolve.
    destruct (preset (resolution s)); inversion Hp; subst; repeat split. }
  split; [exact Hw|]. split; [exact Hh|]. split; [exact Hc|]. split.
  - destruct (finalOnload_downloads show s img)
      as (r & Hr & Hcw & Hch & _ & Hd & _).
    fold a in Hcw, Hch, Hd. rewrite Hc in Hd.
    rewrite Hw, round_inject_Z in Hcw. rewrite Hh, round_inject_Z in Hch.
    rewrite Hcw, Hch in Hd.
    exists r. repeat split; assumption.
  - destruct (downloadOnload_downloads show s img)
      as (r & Hr & Hcw & Hch & _ & Hd & _).
    exists r. split; [exact Hr|].
    assert (Download.resolve (imgWidth img) (imgHeight img) (resolution s)
            = {| Download.targetWidth := inject_Z (imgWidth img);
                 Download.targetHeight := inject_Z (imgHeight img) |}) as E.
    { unfold Download.resolve.
      destruct (preset (resolution s)); inversion Hp; reflexivity. }
    rewrite E in Hcw, Hch. simpl in Hcw, Hch.
    rewrite round_inject_Z in Hcw, Hch. repeat split; assumption.
Qed.

Lemma crop_presets_fixed_size_witness :
  let img := {| imgWidth := 4000; imgHeight := 3000 |} in
  let s := exportWith png (presetResolution square) in
  cropPresetSize (preset (resolution s)) = Some (1080, 1080)%Z /\
  FinalDownload.requiresCropping (FinalDownload.resolve 4000 3000 (resolution s)) = true.
Proof.
  intros img s. split; [reflexivity|].
  exact (proj1 (proj2 (proj2
    (crop_presets_fixed_size integerToString s img 1080%Z 1080%Z eq_refl)))).
Defined.

(** C4 as stated fails on [handleDownload]: with the preset [square] a
    4000 x 3000 source is exported on a 4000 x 3000 canvas, drawn whole. *)
Lemma square_preset_ignored_by_handleDownload :
  exists r,
    handleDownload integerToString
      (Some (Loads {| imgWidth := 4000; imgHeight := 3000 |})) true
      (exportWith png (presetResolution square)) = Downloaded r
    /\ canvasWidth r = 4000%Z /\ canvasHeight r = 3000%Z
    /\ drawn r = DrawWhole
    /\ (canvasWidth r, canvasHeight r) <> (1080, 1080)%Z.
Proof.
  eexists. split; [vm_compute; reflexivity|]. simpl.
  repeat split; discriminate.
Qed.

(** The scenario of the specification: a 4000 x 3000 source exported as
    [square] is cropped to the 3000 x 3000 rectangle that starts at
    (500, 0). *)
Example square_scenario :
  let c := FinalDownload.computeCropRect 4000 3000 1080 1080 in
  sx c == 500 /\ sy c == 0 /\ sWidth c == 3000 /\ sHeight c == 3000.
Proof. vm_compute. repeat split. Qed.

(** ** Dimensions are not validated *)

(** C2, amended.  Neither handler checks the resolved dimensions: no run
    ends in a dimension failure.  Once the image decodes and a 2D context
    exists, the export reaches the download for every export settings and
    every image size.  The only runs without a download are those without
    an image, with an image that fails to decode, or without a 2D context;
    there [handleFinalDownload] shows a message and [handleDownload] does
    nothing. *)
Theorem export_does_not_check_dimensions
    (show : Q -> string) (s : ExportSettings) (img : Image) (ctx : bool) :
  (exists r, handleFinalDownload show (Some (Loads img)) true s = Downloaded r) /\
  (exists r, handleDownload show (Some (Loads img)) true s = Downloaded r) /\
  handleFinalDownload show None ctx s
    = ErrorShown "No enhanced image available to download." /\
  handleFinalDownload show (Some Fails) ctx s
    = ErrorShown "Failed to load enhanced image for conversion." /\
  handleFinalDownload show (Some (Loads img)) false s
    = ErrorShown "Could not process image for download." /\
  handleDownload show None ctx s = Nothing /\
  handleDownload show (Some Fails) ctx s = Nothing /\
  handleDownload show (Some (Loads img)) false s = Nothing.
Proof.
  split.
  { destruct (finalOnload_downloads show s img) as (r & Hr & _).
    exists r. exact Hr. }
  split.
  { destruct (downloadOnload_downloads show s img) as (r & Hr & _).
    exists r. exact Hr. }
  repeat split.
Qed.

(** C2 as stated fails: a 10000 x 1 source exported as [hd] resolves to a
    height that rounds to 0, and both handlers still download a file. *)
Lemma zero_height_is_downloaded :
  let src := Some (Loads {| imgWidth := 10000; imgHeight := 1 |}) in
  let s := exportWith png (presetResolution hd) in
  (exists r, handleFinalDownload integerToString src true s = Downloaded r
     /\ canvasWidth r = 1920%Z /\ canvasHeight r = 0%Z
     /\ filename r = "ai-fashion-photoshoot-enhanced.png") /\
  (exists r, handleDownload integerToString src true s = Downloaded r
     /\ canvasWidth r = 1920%Z /\ canvasHeight r = 0%Z
     /\ filename r = "ai-fashion-studio.png").
Proof.
  split; (eexists; split; [vm_compute; reflexivity|]); simpl; repeat split.
Qed.

(** ** The filter text *)

(** C7.  For every colour grading record the filter is exactly
    [saturate(S%) contrast(C%) brightness(B%) sepia(W%)], the four fields
    rendered in that order: from [getCanvasFilter] (whose final trim changes
    nothing), hence in [handleFinalDownload], and from the template literal
    of [handleDownload]. *)
Theorem filter_order_fixed
    (show : Q -> string) (g : ColorGradingSettings)
    (s : ExportSettings) (img : Image) :
  getCanvasFilter show g
    = "saturate(" ++ show (saturation g) ++ "%) contrast(" ++ show (contrast g)
      ++ "%) brightness(" ++ show (brightness g) ++ "%) sepia("
      ++ show (warmth g) ++ "%)" /\
  (exists r, handleFinalDownload show (Some (Loads img)) true s = Downloaded r
             /\ filter r = filterText show (colorGrading s)) /\
  (exists r, handleDownload show (Some (Loads img)) true s = Downloaded r
             /\ filter r = filterText show (colorGrading s)).
Proof.
  split; [apply getCanvasFilter_text|]. split.
  - destruct (finalOnload_downloads show s img) as (r & Hr & _ & _ & Hf & _).
    exists r. split; assumption.
  - destruct (downloadOnload_downloads show s img) as (r & Hr & _ & _ & Hf & _).
    exists r. split; assumption.
Qed.

Example default_filter :
  getCanvasFilter integerToString (colorGrading initialExportSettings)
  = "saturate(100%) contrast(100%) brightness(100%) sepia(0%)".
Proof. vm_compute. reflexivity. Qed.

(** ** Encoding *)

Lemma formatName_encodedAs (base : string) (s : ExportSettings) (r : Rendering) :
  mimeType r = "image/" ++ formatName (format s) ->
  encoderQuality r = match format s with
                     | jpeg => Some (quality s / 100)
                     | png => None
                     end ->
  filename r = (base ++ ".") ++ formatName (format s) ->
  encodedAs base s r.
Proof.
  unfold encodedAs. intros Hm Hq Hf.
  destruct (format s); simpl in *; rewrite append_assoc in Hf;
    repeat split; assumption.
Qed.

(** C9.  Every export that reaches the encoder follows the format: for
    [jpeg] the encoder is called with ['image/jpeg'] and [quality / 100]
    (between 0.10 and 1.00 when the quality is between 10 and 100) and the
    file name ends in [.jpeg]; for [png] it is called with ['image/png']
    and no quality, the file name ends in [.png], and the quality setting
    has no influence on the outcome. *)
Theorem encoding_follows_format
    (show : Q -> string) (s : ExportSettings) (img : Image) :
  (exists r, handleFinalDownload show (Some (Loads img)) true s = Downloaded r
             /\ encodedAs "ai-fashion-photoshoot-enhanced" s r) /\
  (exists r, handleDownload show (Some (Loads img)) true s = Downloaded r
             /\ encodedAs "ai-fashion-studio" s r) /\
  (10 <= quality s <= 100 -> 0.10 <= quality s / 100 <= 1.00) /\
  (format s = png ->
   forall (q : Q) (src : option Decoded) (ctx : bool),
     handleFinalDownload show src ctx (withQuality q s)
       = handleFinalDownload show src ctx s
     /\ handleDownload show src ctx (withQuality q s)
       = handleDownload show src ctx s).
Proof.
  split.
  { destruct (finalOnload_downloads show s img)
      as (r & Hr & _ & _ & _ & _ & Hm & Hq & Hf).
    exists r. split; [exact Hr|].
    apply formatName_encodedAs; assumption. }
  split.
  { destruct (downloadOnload_downloads show s img)
      as (r & Hr & _ & _ & _ & _ & Hm & Hq & Hf).
    exists r. split; [exact Hr|].
    apply formatName_encodedAs; assumption. }
  split.
  { intros [Hlo Hhi]. unfold Qdiv.
    split.
    - apply Qle_shift_div_l; [reflexivity | lra].
    - apply Qle_shift_div_r; [reflexivity | lra]. }
  intros Hpng q src ctx.
  unfold handleFinalDownload, handleDownload, finalOnload, downloadOnload.
  destruct src as [[i|]|]; simpl; rewrite ?Hpng; split; reflexivity.
Qed.

Lemma encoding_follows_format_witness :
  let img := {| imgWidth := 1500; imgHeight := 1000 |} in
  (10 <= quality (exportWith jpeg (presetResolution original)) <= 100
   /\ 0.10 <= quality (exportWith jpeg (presetResolution original)) / 100 <= 1.00) /\
  (format (exportWith png (presetResolution original)) = png
   /\ handleDownload integerToString (Some (Loads img)) true
        (withQuality 10 (exportWith png (presetResolution original)))
      = handleDownload integerToString (Some (Loads img)) true
          (exportWith png (presetResolution original))).
Proof.
  intros img.
  assert (10 <= quality (exportWith jpeg (presetResolution original)) <= 100) as Hq.
  { split; discriminate. }
  split.
  - split; [exact Hq|].
    exact (proj1 (proj2 (proj2
      (encoding_follows_format integerToString
         (exportWith jpeg (presetResolution original)) img))) Hq).
  - split; [reflexivity|].
    exact (proj2 (proj2 (proj2 (proj2
      (encoding_follows_format integerToString
         (exportWith png (presetResolution original)) img))) eq_refl
      10 (Some (Loads img)) true)).
Defined.

(** ** The crop rectangle *)

(** C6.  For positive source and canvas dimensions the crop rectangle of
    [handleFinalDownload] keeps the full height when the source is
    relatively wider than the canvas ([sHeight = sourceHeight],
    [sWidth = sourceHeight * targetAR], [sy = 0]), keeps the full width when
    it is relatively taller ([sWidth = sourceWidth],
    [sHeight = sourceWidth / targetAR], [sx = 0]), is the whole source when
    the ratios are equal, and is centred in every case:
    [sx = (sourceWidth - sWidth) / 2] and [sy = (sourceHeight - sHeight) / 2]. *)
Theorem crop_rect_cases (sourceWidth sourceHeight targetWidth targetHeight : Z) :
  (0 < sourceWidth)%Z -> (0 < sourceHeight)%Z ->
  (0 < targetWidth)%Z -> (0 < targetHeight)%Z ->
  let sourceAR := inject_Z sourceWidth / inject_Z sourceHeight in
  let targetAR := inject_Z targetWidth / inject_Z targetHeight in
  let c := FinalDownload.computeCropRect sourceWidth sourceHeight targetWidth targetHeight in
  (targetAR < sourceAR ->
     sHeight c == inject_Z sourceHeight
     /\ sWidth c == inject_Z sourceHeight * targetAR
     /\ sy c == 0) /\
  (sourceAR < targetAR ->
     sWidth c == inject_Z sourceWidth
     /\ sHeight c == inject_Z sourceWidth / targetAR
     /\ sx c == 0) /\
  (sourceAR == targetAR ->
     sx c == 0 /\ sy c == 0
     /\ sWidth c == inject_Z sourceWidth
     /\ sHeight c == inject_Z sourceHeight) /\
  centered sourceWidth sourceHeight c.
Proof.
  intros _ _ _ _ sourceAR targetAR c.
  subst c. unfold FinalDownload.computeCropRect, centered.
  fold sourceAR. fold targetAR.
  destruct (Js.gtb sourceAR targetAR) eqn:Gt.
  - apply gtb_true in Gt. cbn [sx sy sWidth sHeight]. rewrite !half.
    split; [intros _; repeat split; reflexivity|].
    split; [intros Hlt; lra|].
    split; [intros Heq; lra|].
    split; [reflexivity | lra].
  - apply gtb_false in Gt.
    destruct (Js.ltb sourceAR targetAR) eqn:Lt.
    + apply ltb_true in Lt. cbn [sx sy sWidth sHeight]. rewrite !half.
      split; [intros Hgt; lra|].
      split; [intros _; repeat split; reflexivity|].
      split; [intros Heq; lra|].
      split; [lra | reflexivity].
    + apply ltb_false in Lt. cbn [sx sy sWidth sHeight]. rewrite !half.
      split; [intros Hgt; lra|].
      split; [intros Hlt; lra|].
      split; [intros _; repeat split; reflexivity|].
      split; lra.
Qed.

Lemma crop_rect_cases_witness :
  (0 < 4000)%Z /\ (0 < 3000)%Z /\ (0 < 1080)%Z /\ (0 < 1080)%Z /\
  centered 4000 3000 (FinalDownload.computeCropRect 4000 3000 1080 1080).
Proof.
  do 4 (split; [reflexivity|]).
  exact (proj2 (proj2 (proj2
    (crop_rect_cases 4000 3000 1080 1080 eq_refl eq_refl eq_refl eq_refl)))).
Defined.

(** C10.  For positive source and canvas dimensions the crop rectangle lies
    inside the source image and is not empty: [0 <= sx], [0 <= sy],
    [sx + sWidth <= sourceWidth], [sy + sHeight <= sourceHeight],
    [0 < sWidth] and [0 < sHeight]; so whenever [handleFinalDownload] draws a
    region of such a source on such a canvas, the region is inside the
    source. *)
Theorem crop_rect_inside_source
    (originalWidth originalHeight canvasW canvasH : Z) :
  (0 < originalWidth)%Z -> (0 < originalHeight)%Z ->
  (0 < canvasW)%Z -> (0 < canvasH)%Z ->
  insideSource originalWidth originalHeight
    (FinalDownload.computeCropRect originalWidth originalHeight canvasW canvasH) /\
  (forall (show : Q -> string) (s : ExportSettings) (r : Rendering) (c : CropRect),
     handleFinalDownload show
       (Some (Loads {| imgWidth := originalWidth; imgHeight := originalHeight |}))
       true s = Downloaded r ->
     canvasWidth r = canvasW -> canvasHeight r = canvasH ->
     drawn r = DrawRegion c ->
     insideSource originalWidth originalHeight c).
Proof.
  intros HW HH HcW HcH.
  assert (insideSource originalWidth originalHeight
            (FinalDownload.computeCropRect originalWidth originalHeight
               canvasW canvasH)) as Hinside.
  { apply inject_Z_pos in HW, HH, HcW, HcH.
    unfold FinalDownload.computeCropRect, insideSource.
    pose proof (div_pos _ _ HW HH) as Hq.
    pose proof (div_pos _ _ HcW HcH) as Hr.
    pose proof (div_mul_cancel (inject_Z originalWidth) (inject_Z originalHeight) HH) as Eq.
    set (q := inject_Z originalWidth / inject_Z originalHeight) in *.
    set (r := inject_Z canvasW / inject_Z canvasH) in *.
    set (a := inject_Z originalWidth) in *.
    set (b := inject_Z originalHeight) in *.
    destruct (Js.gtb q r) eqn:Gt.
    - apply gtb_true in Gt. cbn [sx sy sWidth sHeight]. rewrite !half.
      assert (b * r < a) as Hlt by nra.
      assert (0 < b * r) as Hpos by nra.
      repeat split; lra.
    - apply gtb_false in Gt.
      destruct (Js.ltb q r) eqn:Lt.
      + apply ltb_true in Lt. cbn [sx sy sWidth sHeight].
        pose proof (div_mul_cancel a r Hr) as Eh.
        pose proof (div_pos _ _ HW Hr) as Hh.
        set (h := a / r) in *.
        assert (h < b) as Hlt by nra.
        rewrite !half. repeat split; lra.
      + cbn [sx sy sWidth sHeight]. repeat split; lra. }
  split; [exact Hinside|].
  intros show s r c Hrun Hcw Hch Hdrawn.
  destruct (finalOnload_downloads show s
              {| imgWidth := originalWidth; imgHeight := originalHeight |})
    as (r' & Hr' & _ & _ & _ & Hd & _).
  cbn [handleFinalDownload] in Hrun. rewrite Hr' in Hrun.
  injection Hrun as ->.
  cbn [imgWidth imgHeight] in Hd. rewrite Hcw, Hch, Hdrawn in Hd.
  destruct (FinalDownload.requiresCropping _); [|discriminate].
  injection Hd as ->. exact Hinside.
Qed.

Lemma crop_rect_inside_source_witness :
  (0 < 4000)%Z /\ (0 < 3000)%Z /\ (0 < 1080)%Z /\ (0 < 1920)%Z /\
  insideSource 4000 3000 (FinalDownload.computeCropRect 4000 3000 1080 1920) /\
  exists (r : Rendering) (c : CropRect),
    handleFinalDownload integerToString
      (Some (Loads {| imgWidth := 4000; imgHeight := 3000 |})) true
      (exportWith png (presetResolution portrait)) = Downloaded r
    /\ canvasWidth r = 1080%Z /\ canvasHeight r = 1920%Z
    /\ drawn r = DrawRegion c
    /\ insideSource 4000 3000 c.
Proof.
  pose proof (crop_rect_inside_source 4000 3000 1080 1920
                eq_refl eq_refl eq_refl eq_refl) as [Hrect Hdraw].
  do 4 (split; [reflexivity|]).
  split; [exact Hrect|].
  destruct (finalOnload_downloads integerToString
              (exportWith png (presetResolution portrait))
              {| imgWidth := 4000; imgHeight := 3000 |})
    as (r & Hr & Hw & Hh & _ & Hd & _).
  exists r, (FinalDownload.computeCropRect 4000 3000 (canvasWidth r) (canvasHeight r)).
  split; [exact Hr|]. split; [exact Hw|]. split; [exact Hh|]. split; [exact Hd|].
  exact (Hdraw integerToString (exportWith png (presetResolution portrait)) r _
           Hr Hw Hh Hd).
Defined.

(** ** Custom resolution *)



Lemma ifTruthy_falsy {A} (v : option Q) (yes : Q -> A) (no : A) :
  Js.truthy v = false -> Js.ifTruthy v yes no = no.
Proof.
  unfold Js.truthy, Js.ifTruthy. destruct v as [q|]; [|reflexivity].
  destruct (Qeq_bool q 0); [reflexivity | discriminate].
Qed.





(** ** Loading the settings *)

Lemma spread_lookup (a b : object) (k : string) :
  spread a b !! k = match b !! k with
                    | Some v => Some v
                    | None => a !! k
                    end.
Proof.
  unfold spread. rewrite lookup_union.
  destruct (b !! k), (a !! k); reflexivity.
Qed.

Lemma mergeSettings_object (m : object) :
  mergeSettings (JObj m)
  = Some (<["resolution" :=
              JObj (spread defaultResolution (ownPropsOrEmpty (m !! "resolution")))]>
          (<["colorGrading" :=
               JObj (spread defaultColorGrading (ownPropsOrEmpty (m !! "colorGrading")))]>
           (spread defaultSettings m))).
Proof. reflexivity. Qed.

Lemma merged_lookup (parsed : json) (merged : object) (k : string) :
  mergeSettings parsed = Some merged ->
  k <> "colorGrading" -> k <> "resolution" ->
  merged !! k = match ownProps parsed !! k with
                | Some v => Some v
                | None => defaultSettings !! k
                end.
Proof.
  unfold mergeSettings. intros Hm Hc Hr.
  destruct (getField parsed "colorGrading"), (getField parsed "resolution");
    try discriminate.
  injection Hm as <-.
  rewrite lookup_insert_ne by congruence.
  rewrite lookup_insert_ne by congruence.
  apply spread_lookup.
Qed.

Lemma formatIncluded_true (v : option json) :
  formatIncluded v = true ->
  exists f, v = Some (JStr f) /\ (f = "png" \/ f = "jpeg").
Proof.
  destruct v as [[| | |f| |]|]; simpl; try discriminate.
  intros Hf. exists f. split; [reflexivity|].
  apply Bool.orb_true_iff in Hf.
  destruct Hf as [Hf|Hf]; apply String.eqb_eq in Hf; auto.
Qed.

Lemma formatIncluded_false (v : json) :
  v <> JStr "png" -> v <> JStr "jpeg" -> formatIncluded (Some v) = false.
Proof.
  intros Hp Hj. destruct v as [| | |f| |]; simpl; try reflexivity.
  apply Bool.orb_false_iff.
  split; apply String.eqb_neq; congruence.
Qed.

Lemma qualityInRange_true (v : option json) :
  qualityInRange v = true ->
  exists q, v = Some (JNum q) /\ 10 <= q <= 100.
Proof.
  destruct v as [[| |q| | |]|]; simpl; try discriminate.
  intros Hq. exists q. split; [reflexivity|].
  apply Bool.andb_true_iff in Hq. destruct Hq as [Hlo Hhi].
  apply geb_true in Hlo. apply Qle_bool_iff in Hhi. split; assumption.
Qed.

Lemma qualityInRange_false (v : json) :
  (forall q, v = JNum q -> ~ 10 <= q <= 100) -> qualityInRange (Some v) = false.
Proof.
  intros Hv. destruct (qualityInRange (Some v)) eqn:E; [|reflexivity].
  apply qualityInRange_true in E. destruct E as (q & Eq & Hq).
  injection Eq as ->. exfalso. exact (Hv q eq_refl Hq).
Qed.

Lemma load_parsed_object (m : object) (merged : object) :
  mergeSettings (JObj m) = Some merged ->
  loadInitialSettings (Parsed (JObj m))
  = if basicValidation merged then merged else defaultSettings.
Proof. intros Hm. unfold loadInitialSettings. now rewrite Hm. Qed.

Lemma defaults_valid :
  defaultSettings !! "format" = Some (JStr "jpeg")
  /\ defaultSettings !! "quality" = Some (JNum 92).
Proof. split; vm_compute; reflexivity. Qed.

(** C8.  The load returns the hard-coded defaults when the store cannot be
    read, holds no record or holds unparsable JSON, and when the parsed
    record has a format other than ['png'] and ['jpeg'] or a quality that
    is not a number between 10 and 100.  The defaults are [jpeg], quality 92
    (95 for the constant [initialExportSettings]), the identity colour
    grading, the [original] resolution and a locked aspect ratio.  Hence
    whatever is stored, the loaded settings have a format among ['png'] and
    ['jpeg'] and a quality between 10 and 100. *)
Theorem load_falls_back_to_defaults :
  loadInitialSettings StorageError = defaultSettings /\
  loadInitialSettings Missing = defaultSettings /\
  loadInitialSettings Malformed = defaultSettings /\
  (forall (m : object) (v : json),
     m !! "format" = Some v -> v <> JStr "png" -> v <> JStr "jpeg" ->
     loadInitialSettings (Parsed (JObj m)) = defaultSettings) /\
  (forall (m : object) (v : json),
     m !! "quality" = Some v -> (forall q, v = JNum q -> ~ 10 <= q <= 100) ->
     loadInitialSettings (Parsed (JObj m)) = defaultSettings) /\
  (defaultSettings !! "format" = Some (JStr "jpeg")
   /\ defaultSettings !! "quality" = Some (JNum 92)
   /\ quality initialExportSettings = 95
   /\ defaultSettings !! "colorGrading" = Some (JObj defaultColorGrading)
   /\ defaultColorGrading !! "preset" = Some (JStr "none")
   /\ defaultColorGrading !! "saturation" = Some (JNum 100)
   /\ defaultColorGrading !! "contrast" = Some (JNum 100)
   /\ defaultColorGrading !! "brightness" = Some (JNum 100)
   /\ defaultColorGrading !! "warmth" = Some (JNum 0)
   /\ defaultSettings !! "resolution" = Some (JObj defaultResolution)
   /\ defaultResolution !! "preset" = Some (JStr "original")
   /\ defaultResolution !! "aspectRatioLocked" = Some (JBool true)) /\
  (forall saved : Saved,
     exists (f : string) (q : Q),
       loadInitialSettings saved !! "format" = Some (JStr f)
       /\ (f = "png" \/ f = "jpeg")
       /\ loadInitialSettings saved !! "quality" = Some (JNum q)
       /\ 10 <= q <= 100).
Proof.
  do 3 (split; [reflexivity|]).
  split.
  { intros m v Hv Hp Hj.
    rewrite (load_parsed_object m _ (mergeSettings_object m)).
    unfold basicValidation.
    rewrite (merged_lookup (JObj m) _ "format" (mergeSettings_object m))
      by discriminate.
    cbn [ownProps]. rewrite Hv, formatIncluded_false by assumption.
    reflexivity. }
  split.
  { intros m v Hv Hq.
    rewrite (load_parsed_object m _ (mergeSettings_object m)).
    unfold basicValidation.
    rewrite (merged_lookup (JObj m) _ "quality" (mergeSettings_object m))
      by discriminate.
    cbn [ownProps]. rewrite Hv, qualityInRange_false by assumption.
    rewrite Bool.andb_false_r. reflexivity. }
  split.
  { repeat split; vm_compute; reflexivity. }
  assert (exists (f : string) (q : Q),
            defaultSettings !! "format" = Some (JStr f)
            /\ (f = "png" \/ f = "jpeg")
            /\ defaultSettings !! "quality" = Some (JNum q)
            /\ 10 <= q <= 100) as Hdefault.
  { exists "jpeg", 92. destruct defaults_valid as [Hf Hq].
    repeat split; auto; discriminate. }
  intros [| | |parsed]; try exact Hdefault.
  unfold loadInitialSettings.
  destruct (mergeSettings parsed) as [merged|]; [|exact Hdefault].
  destruct (basicValidation merged) eqn:Hvalid; [|exact Hdefault].
  unfold basicValidation in Hvalid.
  apply Bool.andb_true_iff in Hvalid. destruct Hvalid as [Hf Hq].
  apply formatIncluded_true in Hf. destruct Hf as (f & Ef & Hf).
  apply qualityInRange_true in Hq. destruct Hq as (q & Eq & Hq).
  exists f, q. repeat split; tauto.
Qed.

Lemma load_falls_back_to_defaults_witness :
  (({[ "format" := JStr "bmp" ]} : object) !! "format" = Some (JStr "bmp")
   /\ JStr "bmp" <> JStr "png" /\ JStr "bmp" <> JStr "jpeg"
   /\ loadInitialSettings (Parsed (JObj {[ "format" := JStr "bmp" ]})) = defaultSettings) /\
  (({[ "quality" := JNum 500 ]} : object) !! "quality" = Some (JNum 500)
   /\ ~ 10 <= 500 <= 100
   /\ loadInitialSettings (Parsed (JObj {[ "quality" := JNum 500 ]})) = defaultSettings).
Proof.
  assert (({[ "format" := JStr "bmp" ]} : object) !! "format" = Some (JStr "bmp")) as Hl
    by (vm_compute; reflexivity).
  assert (JStr "bmp" <> JStr "png") as Hp by discriminate.
  assert (JStr "bmp" <> JStr "jpeg") as Hj by discriminate.
  assert (({[ "quality" := JNum 500 ]} : object) !! "quality" = Some (JNum 500)) as Hq
    by (vm_compute; reflexivity).
  assert (~ 10 <= 500 <= 100) as Hrange.
  { intros [_ Hhi]. apply Hhi. reflexivity. }
  split.
  - split; [exact Hl|]. split; [exact Hp|]. split; [exact Hj|].
    exact (proj1 (proj2 (proj2 (proj2 load_falls_back_to_defaults)))
             {[ "format" := JStr "bmp" ]} (JStr "bmp") Hl Hp Hj).
  - split; [exact Hq|]. split; [exact Hrange|].
    refine (proj1 (proj2 (proj2 (proj2 (proj2 load_falls_back_to_defaults))))
              {[ "quality" := JNum 500 ]} (JNum 500) Hq _).
    intros q Eq. injection Eq as <-. exact Hrange.
Defined.

Lemma merged_passes (m merged : object) :
  mergeSettings (JObj m) = Some merged ->
  (m !! "format" = None \/ m !! "format" = Some (JStr "png")
   \/ m !! "format" = Some (JStr "jpeg")) ->
  (m !! "quality" = None
   \/ exists q, m !! "quality" = Some (JNum q) /\ 10 <= q <= 100) ->
  basicValidation merged = true.
Proof.
  intros Hm Hf Hq. unfold basicValidation.
  rewrite (merged_lookup (JObj m) merged "format" Hm) by discriminate.
  rewrite (merged_lookup (JObj m) merged "quality" Hm) by discriminate.
  cbn [ownProps]. apply Bool.andb_true_iff. split.
  - destruct Hf as [-> | [-> | ->]]; [rewrite (proj1 defaults_valid)| |]; reflexivity.
  - destruct Hq as [-> | (q & -> & Hlo & Hhi)].
    + rewrite (proj2 defaults_valid). reflexivity.
    + cbn [qualityInRange]. apply Bool.andb_true_iff. split.
      * now apply geb_true.
      * now apply Qle_bool_iff.
Qed.

Lemma group_spreads_nothing (d : object) (v : option json) :
  spreadsNothing v -> spread d (ownPropsOrEmpty v) = d.
Proof.
  unfold spread.
  destruct v as [[|b|q|t|l|c]|]; cbn [spreadsNothing]; intros Hv;
    try contradiction.
  - apply (left_id_L ∅ (∪)).
  - cbn [ownPropsOrEmpty Json.truthy ownProps]. destruct b; apply (left_id_L ∅ (∪)).
  - cbn [ownPropsOrEmpty Json.truthy ownProps].
    destruct (negb (Qeq_bool q 0)); apply (left_id_L ∅ (∪)).
  - subst t. apply (left_id_L ∅ (∪)).
  - apply (left_id_L ∅ (∪)).
Qed.

(** C3, amended.  The load merges a parsed record into the defaults field
    by field, at the top level and inside [colorGrading] and [resolution],
    and then validates format and quality only.

    - When the stored format is missing, ['png'] or ['jpeg'] and the stored
      quality is missing or a number between 10 and 100, the merged record
      is returned: every top-level field other than the two groups is the
      stored one when there is one and its default otherwise, without any
      check; a group stored as a record is merged with the group's defaults
      in the same way; a group that is missing, [null], a boolean, a number
      or the empty string is replaced by the group's defaults.
    - When the stored format is anything else, or the stored quality is not
      a number between 10 and 100, the defaults are returned and every
      field of the record is dropped. *)
Theorem load_merges_then_validates (m : object) :
  let loaded := loadInitialSettings (Parsed (JObj m)) in
  ((m !! "format" = None \/ m !! "format" = Some (JStr "png")
    \/ m !! "format" = Some (JStr "jpeg")) ->
   (m !! "quality" = None
    \/ exists q, m !! "quality" = Some (JNum q) /\ 10 <= q <= 100) ->
   (forall k : string, k <> "colorGrading" -> k <> "resolution" ->
      loaded !! k = storedOr defaultSettings m k) /\
   (forall c : object, m !! "colorGrading" = Some (JObj c) ->
      exists c', loaded !! "colorGrading" = Some (JObj c')
                 /\ forall k, c' !! k = storedOr defaultColorGrading c k) /\
   (forall c : object, m !! "resolution" = Some (JObj c) ->
      exists c', loaded !! "resolution" = Some (JObj c')
                 /\ forall k, c' !! k = storedOr defaultResolution c k) /\
   (spreadsNothing (m !! "colorGrading") ->
      loaded !! "colorGrading" = Some (JObj defaultColorGrading)) /\
   (spreadsNothing (m !! "resolution") ->
      loaded !! "resolution" = Some (JObj defaultResolution))) /\
  (forall v : json,
     m !! "format" = Some v -> v <> JStr "png" -> v <> JStr "jpeg" ->
     loaded = defaultSettings) /\
  (forall v : json,
     m !! "quality" = Some v -> (forall q, v = JNum q -> ~ 10 <= q <= 100) ->
     loaded = defaultSettings).
Proof.
  intros loaded. subst loaded.
  rewrite (load_parsed_object m _ (mergeSettings_object m)).
  split.
  { intros Hf Hq.
    rewrite (merged_passes m _ (mergeSettings_object m) Hf Hq).
    split.
    { intros k Hc Hr.
      apply (merged_lookup (JObj m) _ k (mergeSettings_object m) Hc Hr). }
    split.
    { intros c Hc. eexists. split.
      - rewrite lookup_insert_ne by discriminate. rewrite lookup_insert_eq.
        rewrite Hc. reflexivity.
      - intros k. cbn [ownPropsOrEmpty Json.truthy ownProps]. apply spread_lookup. }
    split.
    { intros c Hc. eexists. split.
      - rewrite lookup_insert_eq. rewrite Hc. reflexivity.
      - intros k. cbn [ownPropsOrEmpty Json.truthy ownProps]. apply spread_lookup. }
    split.
    { intros Hc. rewrite lookup_insert_ne by discriminate. rewrite lookup_insert_eq.
      now rewrite group_spreads_nothing. }
    intros Hc. rewrite lookup_insert_eq. now rewrite group_spreads_nothing. }
  split.
  { intros v Hv Hp Hj. unfold basicValidation.
    rewrite (merged_lookup (JObj m) _ "format" (mergeSettings_object m))
      by discriminate.
    cbn [ownProps]. rewrite Hv, formatIncluded_false by assumption.
    reflexivity. }
  intros v Hv Hq. unfold basicValidation.
  rewrite (merged_lookup (JObj m) _ "quality" (mergeSettings_object m))
    by discriminate.
  cbn [ownProps]. rewrite Hv, qualityInRange_false by assumption.
  rewrite Bool.andb_false_r. reflexivity.
Qed.

Lemma load_merges_then_validates_witness :
  let m : object :=
    {[ "format" := JStr "png"; "quality" := JNum 50;
       "colorGrading" := JObj {[ "saturation" := JStr "abc" ]};
       "resolution" := JNum 7 ]} in
  let bad : object := {[ "format" := JStr "bmp"; "quality" := JNum 50 ]} in
  (m !! "format" = Some (JStr "png")
   /\ (exists q, m !! "quality" = Some (JNum q) /\ 10 <= q <= 100)
   /\ loadInitialSettings (Parsed (JObj m)) !! "format" = Some (JStr "png")
   /\ loadInitialSettings (Parsed (JObj m)) !! "quality" = Some (JNum 50)
   /\ (exists c : object,
         loadInitialSettings (Parsed (JObj m)) !! "colorGrading" = Some (JObj c)
         /\ c !! "saturation" = Some (JStr "abc")
         /\ c !! "contrast" = Some (JNum 100))
   /\ loadInitialSettings (Parsed (JObj m)) !! "resolution"
      = Some (JObj defaultResolution)) /\
  (bad !! "format" = Some (JStr "bmp")
   /\ JStr "bmp" <> JStr "png" /\ JStr "bmp" <> JStr "jpeg"
   /\ loadInitialSettings (Parsed (JObj bad)) = defaultSettings).
Proof.
  intros m bad. split.
  - assert (m !! "format" = Some (JStr "png")) as Hf by (vm_compute; reflexivity).
    assert (exists q, m !! "quality" = Some (JNum q) /\ 10 <= q <= 100) as Hq.
    { exists 50. split; [vm_compute; reflexivity|]. split; discriminate. }
    destruct (proj1 (load_merges_then_validates m) (or_intror (or_introl Hf))
                (or_intror Hq))
      as (Htop & Hgrading & _ & _ & Hresolution).
    destruct (Hgrading {[ "saturation" := JStr "abc" ]}) as (c & Hc & Hfields).
    { vm_compute. reflexivity. }
    split; [exact Hf|]. split; [exact Hq|].
    split; [rewrite (Htop "format") by discriminate; vm_compute; reflexivity|].
    split; [rewrite (Htop "quality") by discriminate; vm_compute; reflexivity|].
    split.
    + exists c. split; [exact Hc|].
      split; rewrite Hfields; vm_compute; reflexivity.
    + apply Hresolution. vm_compute. exact I.
  - assert (bad !! "format" = Some (JStr "bmp")) as Hf by (vm_compute; reflexivity).
    assert (JStr "bmp" <> JStr "png") as Hp by discriminate.
    assert (JStr "bmp" <> JStr "jpeg") as Hj by discriminate.
    split; [exact Hf|]. split; [exact Hp|]. split; [exact Hj|].
    exact (proj1 (proj2 (load_merges_then_validates bad)) (JStr "bmp") Hf Hp Hj).
Defined.

(** C3 as stated fails: with a stored record whose format is ['bmp'] and
    whose quality is the well-formed 50, the load returns the defaults, so
    the quality is 92 and the stored 50 is not kept. *)
Lemma malformed_format_drops_whole_record :
  let m : object := {[ "format" := JStr "bmp"; "quality" := JNum 50 ]} in
  qualityInRange (m !! "quality") = true
  /\ loadInitialSettings (Parsed (JObj m)) = defaultSettings
  /\ loadInitialSettings (Parsed (JObj m)) !! "quality" = Some (JNum 92)
  /\ loadInitialSettings (Parsed (JObj m)) !! "quality" <> Some (JNum 50).
Proof.
  intros m. subst m.
  split; [vm_compute; reflexivity|].
  split; [vm_compute; reflexivity|].
  split; [vm_compute; reflexivity|].
  vm_compute. discriminate.
Qed.

(** A field that the validation does not look at is kept even when it is
    not a number. *)
Example unchecked_field_is_kept :
  let m : object :=
    {[ "colorGrading" := JObj {[ "saturation" := JStr "abc" ]} ]} in
  exists c : object,
    loadInitialSettings (Parsed (JObj m)) !! "colorGrading" = Some (JObj c)
    /\ c !! "saturation" = Some (JStr "abc")
    /\ c !! "contrast" = Some (JNum 100).
Proof.
  intros m. subst m. eexists.
  split; [vm_compute; reflexivity|].
  split; vm_compute; reflexivity.
Qed.


(** * Further properties of the code *)

(** ** Geometry of the export *)

Lemma ratio_lt (a b c d : Q) :
  0 < b -> 0 < d -> (a / b < c / d <-> a * d < c * b).
Proof.
  intros Hb Hd.
  pose proof (div_mul_cancel a b Hb) as Ea.
  pose proof (div_mul_cancel c d Hd) as Ec.
  set (q := a / b) in *. set (r := c / d) in *. clearbody q r.
  assert (0 < b * d) as Hbd by (apply Qmult_lt_0_compat; assumption).
  rewrite <- Ea, <- Ec.
  split; intros Hlt.
  - assert (0 < (r - q) * (b * d)) as Hp by (apply Qmult_lt_0_compat; lra).
    lra.
  - apply Qnot_le_lt. intros Hle.
    assert (0 <= (q - r) * (b * d)) as Hp by (apply Qmult_le_0_compat; lra).
    lra.
Qed.

(** X1.  For positive source and canvas dimensions the crop rectangle of
    [handleFinalDownload] has the aspect ratio of the canvas to within one
    part in a million, so stretching it over the canvas does not visibly
    distort the image, and it spans the full width or the full height of
    the source. *)
Theorem crop_rect_has_canvas_ratio
    (originalWidth originalHeight canvasW canvasH : Z) :
  (0 < originalWidth)%Z -> (0 < originalHeight)%Z ->
  (0 < canvasW)%Z -> (0 < canvasH)%Z ->
  let c := FinalDownload.computeCropRect originalWidth originalHeight canvasW canvasH in
  let canvasAspectRatio := inject_Z canvasW / inject_Z canvasH in
  Qabs (sWidth c / sHeight c - canvasAspectRatio)
    <= canvasAspectRatio * (1 # 1000000) /\
  (sWidth c == inject_Z originalWidth \/ sHeight c == inject_Z originalHeight).
Proof.
  intros HW HH HcW HcH c canvasAspectRatio. subst c canvasAspectRatio.
  apply inject_Z_pos in HW, HH, HcW, HcH.
  unfold FinalDownload.computeCropRect.
  pose proof (div_pos _ _ HcW HcH) as Hr.
  set (q := inject_Z originalWidth / inject_Z originalHeight) in *.
  set (r := inject_Z canvasW / inject_Z canvasH) in *.
  set (a := inject_Z originalWidth) in *.
  set (b := inject_Z originalHeight) in *.
  assert (q == a / b) as Eq by reflexivity.
  clearbody q r a b.
  assert (0 <= r * (1 # 1000000)) as He by lra.
  destruct (Js.gtb q r) eqn:Gt.
  - cbn [sx sy sWidth sHeight]. split; [|right; reflexivity].
    apply within; [exact He|]. field. lra.
  - apply gtb_false in Gt.
    destruct (Js.ltb q r) eqn:Lt.
    + cbn [sx sy sWidth sHeight]. split; [|left; reflexivity].
      apply within; [exact He|]. field. split; lra.
    + apply ltb_false in Lt. cbn [sx sy sWidth sHeight].
      split; [|left; reflexivity].
      apply within; [exact He|]. rewrite <- Eq. lra.
Qed.

Lemma crop_rect_has_canvas_ratio_witness :
  (0 < 4000)%Z /\ (0 < 3000)%Z /\ (0 < 1080)%Z /\ (0 < 1920)%Z /\
  Qabs (sWidth (FinalDownload.computeCropRect 4000 3000 1080 1920)
        / sHeight (FinalDownload.computeCropRect 4000 3000 1080 1920)
        - inject_Z 1080 / inject_Z 1920)
    <= inject_Z 1080 / inject_Z 1920 * (1 # 1000000).
Proof.
  do 4 (split; [reflexivity|]).
  exact (proj1 (crop_rect_has_canvas_ratio 4000 3000 1080 1920
                  eq_refl eq_refl eq_refl eq_refl)).
Defined.

Lemma ltb_transposed (a b c d : Q) :
  0 < a -> 0 < b -> 0 < c -> 0 < d ->
  Js.ltb (b / a) (d / c) = Js.gtb (a / b) (c / d).
Proof.
  intros Ha Hb Hc Hd.
  destruct (Js.gtb (a / b) (c / d)) eqn:G.
  - apply gtb_true in G. apply ltb_true.
    apply (ratio_lt c d a b Hd Hb) in G.
    apply (ratio_lt b a d c Ha Hc). lra.
  - apply gtb_false in G. apply ltb_false.
    apply Qnot_lt_le. intros Hlt. apply (Qle_not_lt _ _ G).
    apply (ratio_lt b a d c Ha Hc) in Hlt.
    apply (ratio_lt c d a b Hd Hb). lra.
Qed.

Lemma gtb_transposed (a b c d : Q) :
  0 < a -> 0 < b -> 0 < c -> 0 < d ->
  Js.gtb (b / a) (d / c) = Js.ltb (a / b) (c / d).
Proof.
  intros Ha Hb Hc Hd. symmetry. apply (ltb_transposed b a d c); assumption.
Qed.

(** X2.  Exchanging width and height of both the source and the canvas
    exchanges the axes of the crop rectangle, to within a thousandth of a
    pixel in each coordinate: portrait and landscape sources are cropped
    symmetrically. *)
Theorem crop_rect_transposes
    (originalWidth originalHeight canvasW canvasH : Z) :
  (0 < originalWidth)%Z -> (0 < originalHeight)%Z ->
  (0 < canvasW)%Z -> (0 < canvasH)%Z ->
  nearRect
    (FinalDownload.computeCropRect originalHeight originalWidth canvasH canvasW)
    (transposed
       (FinalDownload.computeCropRect originalWidth originalHeight canvasW canvasH)).
Proof.
  intros HW HH HcW HcH.
  apply inject_Z_pos in HW, HH, HcW, HcH.
  assert (0 <= 1 # 1000) as He by discriminate.
  unfold FinalDownload.computeCropRect, nearRect, transposed.
  set (a := inject_Z originalWidth) in *.
  set (b := inject_Z originalHeight) in *.
  set (c := inject_Z canvasW) in *.
  set (d := inject_Z canvasH) in *.
  clearbody a b c d.
  rewrite (gtb_transposed a b c d), (ltb_transposed a b c d) by assumption.
  destruct (Js.gtb (a / b) (c / d)) eqn:G;
    destruct (Js.ltb (a / b) (c / d)) eqn:L; cbn [sx sy sWidth sHeight].
  - apply gtb_true in G. apply ltb_true in L. lra.
  - split; [|split; [|split]]; (apply within; [exact He|]); try reflexivity.
    + apply Qmult_comp; [|reflexivity].
      unfold Qminus. apply Qplus_comp; [reflexivity|]. apply Qopp_comp.
      field. split; lra.
    + field. split; lra.
  - split; [|split; [|split]]; (apply within; [exact He|]); try reflexivity.
    + apply Qmult_comp; [|reflexivity].
      unfold Qminus. apply Qplus_comp; [reflexivity|]. apply Qopp_comp.
      field. split; lra.
    + field. split; lra.
  - split; [|split; [|split]]; (apply within; [exact He|]); reflexivity.
Qed.

Lemma crop_rect_transposes_witness :
  (0 < 4000)%Z /\ (0 < 3000)%Z /\ (0 < 1080)%Z /\ (0 < 1920)%Z /\
  nearRect (FinalDownload.computeCropRect 3000 4000 1920 1080)
           (transposed (FinalDownload.computeCropRect 4000 3000 1080 1920)).
Proof.
  do 4 (split; [reflexivity|]).
  exact (crop_rect_transposes 4000 3000 1080 1920 eq_refl eq_refl eq_refl eq_refl).
Defined.

Lemma orElse_falsy (v : option Q) (d : Q) : Js.truthy v = false -> Js.orElse v d = d.
Proof. intros Hv. unfold Js.orElse. now apply ifTruthy_falsy. Qed.

Lemma no_crop_at_own_ratio (ar : Q) : Js.gtb (Js.Math_abs (ar - ar)) 0.01 = false.
Proof.
  apply gtb_false. unfold Js.Math_abs, Qminus.
  rewrite Qplus_opp_r. discriminate.
Qed.

(** X3.  With the preset [original], and with the preset [custom] when
    neither a width nor a height is set (each [null] or 0), both handlers
    export a source of positive dimensions at its own size, drawn whole. *)
Theorem export_at_source_size
    (show : Q -> string) (s : ExportSettings) (img : Image) :
  (0 < imgWidth img)%Z -> (0 < imgHeight img)%Z ->
  preset (resolution s) = original
  \/ (preset (resolution s) = custom /\ noDimensions (resolution s)) ->
  (exists r, handleFinalDownload show (Some (Loads img)) true s = Downloaded r
             /\ canvasWidth r = imgWidth img /\ canvasHeight r = imgHeight img
             /\ drawn r = DrawWhole) /\
  (exists r, handleDownload show (Some (Loads img)) true s = Downloaded r
             /\ canvasWidth r = imgWidth img /\ canvasHeight r = imgHeight img
             /\ drawn r = DrawWhole).
Proof.
  intros _ _ Hcase.
  assert (FinalDownload.resolve (imgWidth img) (imgHeight img) (resolution s)
          = {| FinalDownload.targetWidth := inject_Z (imgWidth img);
               FinalDownload.targetHeight := inject_Z (imgHeight img);
               FinalDownload.requiresCropping := false |}) as Ea.
  { unfold FinalDownload.resolve.
    destruct Hcase as [-> | (-> & Hw & Hh)]; [reflexivity|].
    rewrite (orElse_falsy _ _ Hw), (orElse_falsy _ _ Hh).
    now rewrite no_crop_at_own_ratio. }
  assert (Download.resolve (imgWidth img) (imgHeight img) (resolution s)
          = {| Download.targetWidth := inject_Z (imgWidth img);
               Download.targetHeight := inject_Z (imgHeight img) |}) as Eb.
  { unfold Download.resolve.
    destruct Hcase as [-> | (-> & Hw & Hh)]; [reflexivity|].
    now rewrite (ifTruthy_falsy _ _ _ Hw), (ifTruthy_falsy _ _ _ Hh). }
  split.
  - destruct (finalOnload_downloads show s img)
      as (r & Hr & Hcw & Hch & _ & Hd & _).
    rewrite Ea in Hcw, Hch, Hd.
    cbn [FinalDownload.targetWidth FinalDownload.targetHeight
         FinalDownload.requiresCropping] in Hcw, Hch, Hd.
    rewrite round_inject_Z in Hcw, Hch.
    exists r. repeat split; assumption.
  - destruct (downloadOnload_downloads show s img)
      as (r & Hr & Hcw & Hch & _ & Hd & _).
    rewrite Eb in Hcw, Hch.
    cbn [Download.targetWidth Download.targetHeight] in Hcw, Hch.
    rewrite round_inject_Z in Hcw, Hch.
    exists r. repeat split; assumption.
Qed.

Lemma export_at_source_size_witness :
  let img := {| imgWidth := 1500; imgHeight := 1000 |} in
  let s := exportWith png (customResolution (Some 0) None false) in
  (0 < imgWidth img)%Z /\ (0 < imgHeight img)%Z /\
  (preset (resolution s) = custom /\ noDimensions (resolution s)) /\
  exists r, handleFinalDownload integerToString (Some (Loads img)) true s = Downloaded r
            /\ canvasWidth r = 1500%Z /\ canvasHeight r = 1000%Z
            /\ drawn r = DrawWhole.
Proof.
  intros img s.
  assert (preset (resolution s) = custom /\ noDimensions (resolution s)) as Hc.
  { split; [reflexivity|]. split; reflexivity. }
  split; [reflexivity|]. split; [reflexivity|]. split; [exact Hc|].
  exact (proj1 (export_at_source_size integerToString s img
                  eq_refl eq_refl (or_intror Hc))).
Defined.

Lemma geb_ratio (x y : Q) : x == y -> Js.geb x 1 = Js.geb y 1.
Proof. intros E. unfold Js.geb. now rewrite E. Qed.

Lemma round_ratio (x y : Q) : x == y -> Js.Math_round x = Js.Math_round y.
Proof. intros E. unfold Js.Math_round. apply Qfloor_comp. now rewrite E. Qed.

(** X4.  Under the presets [hd] and [4k] the size of the exported canvas
    depends on the source only through its aspect ratio: two sources of
    positive dimensions and equal aspect ratio are exported on canvases of
    the same size, by both handlers. *)
Theorem hd_4k_size_depends_on_ratio_only
    (show : Q -> string) (s : ExportSettings) (img1 img2 : Image) (L : Z) :
  (0 < imgWidth img1)%Z -> (0 < imgHeight img1)%Z ->
  (0 < imgWidth img2)%Z -> (0 < imgHeight img2)%Z ->
  inject_Z (imgWidth img1) / inject_Z (imgHeight img1)
  == inject_Z (imgWidth img2) / inject_Z (imgHeight img2) ->
  longEdge (preset (resolution s)) = Some L ->
  (exists r1 r2,
     handleFinalDownload show (Some (Loads img1)) true s = Downloaded r1
     /\ handleFinalDownload show (Some (Loads img2)) true s = Downloaded r2
     /\ canvasWidth r1 = canvasWidth r2 /\ canvasHeight r1 = canvasHeight r2) /\
  (exists r1 r2,
     handleDownload show (Some (Loads img1)) true s = Downloaded r1
     /\ handleDownload show (Some (Loads img2)) true s = Downloaded r2
     /\ canvasWidth r1 = canvasWidth r2 /\ canvasHeight r1 = canvasHeight r2).
Proof.
  intros _ _ _ _ Har HL.
  set (ar1 := inject_Z (imgWidth img1) / inject_Z (imgHeight img1)) in *.
  set (ar2 := inject_Z (imgWidth img2) / inject_Z (imgHeight img2)) in *.
  split.
  - destruct (finalOnload_downloads show s img1) as (r1 & Hr1 & Hw1 & Hh1 & _).
    destruct (finalOnload_downloads show s img2) as (r2 & Hr2 & Hw2 & Hh2 & _).
    exists r1, r2. split; [exact Hr1|]. split; [exact Hr2|].
    rewrite Hw1, Hw2, Hh1, Hh2. unfold FinalDownload.resolve.
    fold ar1. fold ar2. rewrite (geb_ratio ar1 ar2 Har).
    destruct (preset (resolution s)); try discriminate HL;
      destruct (Js.geb ar2 1); cbn [FinalDownload.targetWidth FinalDownload.targetHeight];
      split; try reflexivity; apply round_ratio; now rewrite Har.
  - destruct (downloadOnload_downloads show s img1) as (r1 & Hr1 & Hw1 & Hh1 & _).
    destruct (downloadOnload_downloads show s img2) as (r2 & Hr2 & Hw2 & Hh2 & _).
    exists r1, r2. split; [exact Hr1|]. split; [exact Hr2|].
    rewrite Hw1, Hw2, Hh1, Hh2. unfold Download.resolve.
    fold ar1. fold ar2. rewrite (geb_ratio ar1 ar2 Har).
    destruct (preset (resolution s)); try discriminate HL;
      destruct (Js.geb ar2 1); cbn [Download.targetWidth Download.targetHeight];
      split; try reflexivity; apply round_ratio; now rewrite Har.
Qed.

Lemma hd_4k_size_depends_on_ratio_only_witness :
  let img1 := {| imgWidth := 1000; imgHeight := 2000 |} in
  let img2 := {| imgWidth := 300; imgHeight := 600 |} in
  let s := exportWith jpeg (presetResolution uhd) in
  (0 < imgWidth img1)%Z /\ (0 < imgHeight img1)%Z /\
  (0 < imgWidth img2)%Z /\ (0 < imgHeight img2)%Z /\
  inject_Z 1000 / inject_Z 2000 == inject_Z 300 / inject_Z 600 /\
  longEdge (preset (resolution s)) = Some 3840%Z /\
  exists r1 r2,
    handleDownload integerToString (Some (Loads img1)) true s = Downloaded r1
    /\ handleDownload integerToString (Some (Loads img2)) true s = Downloaded r2
    /\ canvasWidth r1 = canvasWidth r2 /\ canvasHeight r1 = canvasHeight r2.
Proof.
  intros img1 img2 s.
  do 6 (split; [reflexivity|]).
  exact (proj2 (hd_4k_size_depends_on_ratio_only integerToString s img1 img2 3840%Z
                  eq_refl eq_refl eq_refl eq_refl eq_refl eq_refl)).
Defined.

(** ** More on loading the settings *)

(** What every result of a merge has: the default keys at the top level and
    inside the two groups. *)
Lemma union_absorbs (a d : object) : (a ∪ d) ∪ d = a ∪ d.
Proof. now rewrite <- (assoc_L (∪)), (idemp_L (∪)). Qed.

Lemma merged_top (parsed : json) (merged : object) :
  mergeSettings parsed = Some merged -> merged ∪ defaultSettings = merged.
Proof.
  unfold mergeSettings. intros Hm.
  destruct (getField parsed "colorGrading"), (getField parsed "resolution");
    try discriminate.
  injection Hm as <-. unfold spread.
  rewrite !insert_union_l. apply union_absorbs.
Qed.

Lemma merged_groups (parsed : json) (merged : object) :
  mergeSettings parsed = Some merged ->
  exists cg res : object,
    merged !! "colorGrading" = Some (JObj cg)
    /\ cg ∪ defaultColorGrading = cg
    /\ merged !! "resolution" = Some (JObj res)
    /\ res ∪ defaultResolution = res.
Proof.
  unfold mergeSettings. intros Hm.
  destruct (getField parsed "colorGrading") as [c|],
           (getField parsed "resolution") as [r|]; try discriminate.
  injection Hm as <-. unfold spread.
  exists (ownPropsOrEmpty c ∪ defaultColorGrading),
         (ownPropsOrEmpty r ∪ defaultResolution).
  split; [rewrite lookup_insert_ne by discriminate; apply lookup_insert_eq|].
  split; [apply union_absorbs|].
  split; [apply lookup_insert_eq | apply union_absorbs].
Qed.

Lemma defaults_top : defaultSettings ∪ defaultSettings = defaultSettings.
Proof. apply (idemp_L (∪)). Qed.

Lemma defaults_groups :
  exists cg res : object,
    defaultSettings !! "colorGrading" = Some (JObj cg)
    /\ cg ∪ defaultColorGrading = cg
    /\ defaultSettings !! "resolution" = Some (JObj res)
    /\ res ∪ defaultResolution = res.
Proof.
  exists defaultColorGrading, defaultResolution.
  split; [vm_compute; reflexivity|]. split; [apply (idemp_L (∪))|].
  split; [vm_compute; reflexivity | apply (idemp_L (∪))].
Qed.

Lemma defaults_pass : basicValidation defaultSettings = true.
Proof. vm_compute. reflexivity. Qed.

Lemma load_cases (saved : Saved) :
  loadInitialSettings saved = defaultSettings
  \/ exists parsed,
       mergeSettings parsed = Some (loadInitialSettings saved)
       /\ basicValidation (loadInitialSettings saved) = true.
Proof.
  destruct saved as [| | |parsed]; try (left; reflexivity).
  unfold loadInitialSettings.
  destruct (mergeSettings parsed) as [merged|] eqn:Hm; [|left; reflexivity].
  destruct (basicValidation merged) eqn:Hv; [|left; reflexivity].
  right. exists parsed. split; [exact Hm | exact Hv].
Qed.

Lemma merge_of_merged (r : object) :
  r ∪ defaultSettings = r ->
  (exists cg res : object,
     r !! "colorGrading" = Some (JObj cg) /\ cg ∪ defaultColorGrading = cg
     /\ r !! "resolution" = Some (JObj res) /\ res ∪ defaultResolution = res) ->
  mergeSettings (JObj r) = Some r.
Proof.
  intros Htop (cg & res & Hcg & Ecg & Hres & Eres).
  rewrite mergeSettings_object. f_equal.
  rewrite Hcg, Hres. cbn [ownPropsOrEmpty Json.truthy ownProps].
  unfold spread. rewrite Htop, Ecg, Eres.
  rewrite (insert_id r "colorGrading" _ Hcg).
  apply (insert_id r "resolution" _ Hres).
Qed.

(** X5.  Loading is stable under a save: when the store holds exactly the
    record that a load returned, the next load returns that same record,
    whatever the first store held. *)
Theorem load_is_idempotent (saved : Saved) :
  loadInitialSettings (Parsed (JObj (loadInitialSettings saved)))
  = loadInitialSettings saved.
Proof.
  destruct (load_cases saved) as [-> | (parsed & Hm & Hv)].
  - rewrite (load_parsed_object defaultSettings defaultSettings).
    + now rewrite defaults_pass.
    + apply merge_of_merged; [apply defaults_top | apply defaults_groups].
  - set (r := loadInitialSettings saved) in *.
    rewrite (load_parsed_object r r).
    + now rewrite Hv.
    + apply merge_of_merged;
        [apply (merged_top parsed); exact Hm | apply (merged_groups parsed); exact Hm].
Qed.

(** X6.  The code merges "to ensure all keys exist": whatever the store
    holds, the loaded settings have a format and a quality, and their
    [colorGrading] and [resolution] are records with every key of the
    default colour grading and of the default resolution. *)
Theorem load_has_all_keys (saved : Saved) :
  is_Some (loadInitialSettings saved !! "format") /\
  is_Some (loadInitialSettings saved !! "quality") /\
  exists cg res : object,
    loadInitialSettings saved !! "colorGrading" = Some (JObj cg)
    /\ hasKeysOf defaultColorGrading cg
    /\ loadInitialSettings saved !! "resolution" = Some (JObj res)
    /\ hasKeysOf defaultResolution res.
Proof.
  assert (forall a d : object, a ∪ d = a -> hasKeysOf d a) as Hkeys.
  { intros a d E k Hk. rewrite <- E. apply lookup_union_is_Some. now right. }
  assert (forall r : object, basicValidation r = true ->
            is_Some (r !! "format") /\ is_Some (r !! "quality")) as Hvalid.
  { intros r Hv. unfold basicValidation in Hv.
    apply Bool.andb_true_iff in Hv. destruct Hv as [Hf Hq].
    apply formatIncluded_true in Hf. destruct Hf as (f & -> & _).
    apply qualityInRange_true in Hq. destruct Hq as (q & -> & _).
    split; eexists; reflexivity. }
  destruct (load_cases saved) as [-> | (parsed & Hm & Hv)].
  - destruct (Hvalid _ defaults_pass) as [Hf Hq].
    destruct defaults_groups as (cg & res & Hcg & Ecg & Hres & Eres).
    split; [exact Hf|]. split; [exact Hq|].
    exists cg, res. repeat split; auto.
  - destruct (Hvalid _ Hv) as [Hf Hq].
    destruct (merged_groups parsed _ Hm) as (cg & res & Hcg & Ecg & Hres & Eres).
    split; [exact Hf|]. split; [exact Hq|].
    exists cg, res. repeat split; auto.
Qed.

Lemma accepts_lookups (m : object) :
  accepts m
  = formatIncluded (match m !! "format" with
                    | Some v => Some v
                    | None => defaultSettings !! "format"
                    end)
    && qualityInRange (match m !! "quality" with
                       | Some v => Some v
                       | None => defaultSettings !! "quality"
                       end).
Proof.
  unfold accepts. rewrite mergeSettings_object. unfold basicValidation.
  rewrite !lookup_insert_ne by discriminate.
  now rewrite !spread_lookup.
Qed.

(** X7.  Only the format and the quality decide whether a stored record is
    accepted: setting or removing any other field of the record, whatever
    its value, changes neither the acceptance nor, on rejection, the
    fall-back to the defaults. *)
Theorem other_fields_never_reject (m : object) (k : string) (v : json) :
  k <> "format" -> k <> "quality" ->
  accepts (<[k := v]> m) = accepts m
  /\ accepts (delete k m) = accepts m
  /\ (accepts m = false ->
      loadInitialSettings (Parsed (JObj (<[k := v]> m))) = defaultSettings).
Proof.
  intros Hf Hq.
  assert (accepts (<[k := v]> m) = accepts m) as Hins.
  { rewrite !accepts_lookups. now rewrite !lookup_insert_ne by congruence. }
  split; [exact Hins|]. split.
  - rewrite !accepts_lookups. now rewrite !lookup_delete_ne by congruence.
  - intros Hrej. rewrite <- Hins in Hrej. unfold accepts in Hrej.
    rewrite mergeSettings_object in Hrej.
    rewrite (load_parsed_object _ _ (mergeSettings_object _)).
    now rewrite Hrej.
Qed.

Lemma other_fields_never_reject_witness :
  let m : object := {[ "format" := JStr "bmp" ]} in
  "colorGrading" <> "format" /\ "colorGrading" <> "quality" /\
  accepts m = false /\
  loadInitialSettings (Parsed (JObj (<["colorGrading" := JNum 7]> m))) = defaultSettings.
Proof.
  intros m.
  assert ("colorGrading" <> "format") as Hf by discriminate.
  assert ("colorGrading" <> "quality") as Hq by discriminate.
  assert (accepts m = false) as Hr by (vm_compute; reflexivity).
  split; [exact Hf|]. split; [exact Hq|]. split; [exact Hr|].
  exact (proj2 (proj2 (other_fields_never_reject m "colorGrading" (JNum 7) Hf Hq)) Hr).
Defined.

(** X8.  A stored JSON value that is not a record is harmless: [null] makes
    the merge throw and the defaults are returned, and a number or a
    boolean contributes no field, so the defaults are returned as well. *)
Theorem non_record_loads_defaults (q : Q) (b : bool) :
  loadInitialSettings (Parsed JNull) = defaultSettings /\
  loadInitialSettings (Parsed (JNum q)) = defaultSettings /\
  loadInitialSettings (Parsed (JBool b)) = defaultSettings.
Proof.
  assert (mergeSettings (JObj ∅) = Some defaultSettings) as Hempty.
  { vm_compute. reflexivity. }
  split; [reflexivity|].
  split; unfold loadInitialSettings;
    change (mergeSettings (JNum q)) with (mergeSettings (JObj ∅));
    change (mergeSettings (JBool b)) with (mergeSettings (JObj ∅));
    rewrite Hempty; destruct (basicValidation defaultSettings); reflexivity.
Qed.

(** ** The image service *)

Lemma append_cons (c : ascii) (a b : string) : String c a ++ b = String c (a ++ b).
Proof. reflexivity. Qed.

Lemma absent_app (c : ascii) (a b : string) :
  absent c a -> absent c b -> absent c (a ++ b).
Proof.
  intros Ha Hb. induction a as [|x a IH]; [exact Hb|].
  rewrite append_cons. destruct Ha as [Hx Ha]. split; [exact Hx | now apply IH].
Qed.

Lemma split_absent (c : ascii) (s : string) :
  absent c s -> GeminiService.split c s = [s].
Proof.
  induction s as [|x s IH]; [reflexivity|].
  intros [Hx Hs]. cbn [GeminiService.split].
  apply Ascii.eqb_neq in Hx. rewrite Hx, (IH Hs). reflexivity.
Qed.

Lemma split_at_separator (c : ascii) (a b : string) :
  absent c a ->
  GeminiService.split c (a ++ String c b) = a :: GeminiService.split c b.
Proof.
  induction a as [|x a IH]; intros Ha.
  - change (EmptyString ++ String c b) with (String c b).
    cbn [GeminiService.split]. now rewrite Ascii.eqb_refl.
  - destruct Ha as [Hx Ha]. rewrite append_cons. cbn [GeminiService.split].
    apply Ascii.eqb_neq in Hx. rewrite Hx, (IH Ha). reflexivity.
Qed.

Lemma lazy_group (m rest : string) :
  absent ";" m -> singleLine m ->
  GeminiService.lazyUpToSemicolon (m ++ String ";" rest) = Some m.
Proof.
  induction m as [|x m IH]; intros Hsemi Hline.
  - reflexivity.
  - destruct Hsemi as [Hx Hsemi]. destruct Hline as [Hl Hline].
    rewrite append_cons. cbn [GeminiService.lazyUpToSemicolon].
    apply Ascii.eqb_neq in Hx. rewrite Hx, Hl, (IH Hsemi Hline). reflexivity.
Qed.

Lemma nonempty_eqb (s : string) : s <> "" -> String.eqb s "" = false.
Proof. intros Hs. now apply String.eqb_neq. Qed.

Lemma data_uri_request (m d : string) :
  m <> "" -> absent "," m -> absent ";" m -> singleLine m ->
  d <> "" -> absent "," d ->
  GeminiService.enhanceRequest ("data:" ++ m ++ ";base64," ++ d)
  = inr {| GeminiService.data := Some d; GeminiService.mimeType := Some m |}.
Proof.
  intros Hm Hcomma Hsemi Hline Hd Hdcomma.
  unfold GeminiService.enhanceRequest.
  replace ("data:" ++ m ++ ";base64," ++ d)
    with (("data:" ++ m ++ ";base64") ++ String "," d)
    by (rewrite !append_assoc; reflexivity).
  rewrite split_at_separator.
  2:{ apply (absent_app _ "data:"); [repeat split; discriminate|].
      apply absent_app; [exact Hcomma | repeat split; discriminate]. }
  rewrite (split_absent _ d Hdcomma).
  cbn [nth_error].
  change (String.eqb ("data:" ++ m ++ ";base64") "") with false.
  rewrite (nonempty_eqb d Hd). cbn [orb].
  change (GeminiService.matchMimeType ("data:" ++ m ++ ";base64"))
    with (match GeminiService.lazyUpToSemicolon (m ++ String ";" "base64") with
          | Some group => Some group
          | None => GeminiService.matchMimeType (m ++ String ";" "base64")
          end).
  rewrite (lazy_group m "base64" Hsemi Hline).
  now rewrite (nonempty_eqb m Hm).
Qed.

(** X9.  The data URI that the response loop builds from an image part is
    read back by [enhanceImage] into the same MIME type and the same
    payload, provided the MIME type is not empty and has no comma,
    semicolon or line break, and the payload is not empty and has no
    comma. *)
Theorem data_uri_round_trip
    (m d : string) (part : GeminiService.Part) (rest : list GeminiService.Part) :
  m <> "" -> absent "," m -> absent ";" m -> singleLine m ->
  d <> "" -> absent "," d ->
  GeminiService.inlineData part
  = Some {| GeminiService.data := Some d; GeminiService.mimeType := Some m |} ->
  exists uri : string,
    GeminiService.firstImage (part :: rest) = Some uri
    /\ GeminiService.enhanceRequest uri
       = inr {| GeminiService.data := Some d; GeminiService.mimeType := Some m |}.
Proof.
  intros Hm Hcomma Hsemi Hline Hd Hdcomma Hpart.
  exists ("data:" ++ m ++ ";base64," ++ d). split.
  - cbn [GeminiService.firstImage]. now rewrite Hpart.
  - now apply data_uri_request.
Qed.

Lemma data_uri_round_trip_witness :
  let part := {| GeminiService.inlineData :=
                   Some {| GeminiService.data := Some "iVBORw0KGgo=";
                           GeminiService.mimeType := Some "image/png" |} |} in
  exists uri : string,
    GeminiService.firstImage [part] = Some uri
    /\ GeminiService.enhanceRequest uri
       = inr {| GeminiService.data := Some "iVBORw0KGgo=";
                GeminiService.mimeType := Some "image/png" |}.
Proof.
  intros part.
  apply (data_uri_round_trip "image/png" "iVBORw0KGgo=" part []);
    try discriminate; try reflexivity; repeat split; discriminate.
Defined.



Lemma firstImage_unusable (ps : list GeminiService.Part) :
  Forall unusable ps -> GeminiService.firstImage ps = None.
Proof.
  induction 1 as [|part ps Hpart _ IH]; [reflexivity|].
  cbn [GeminiService.firstImage]. unfold unusable in Hpart.
  destruct (GeminiService.inlineData part) as [[[d|] [m|]]|];
    try exact IH; contradiction.
Qed.

Lemma firstImage_skips (skipped rest : list GeminiService.Part)
    (part : GeminiService.Part) (m d : string) :
  Forall unusable skipped ->
  GeminiService.inlineData part
  = Some {| GeminiService.data := Some d; GeminiService.mimeType := Some m |} ->
  GeminiService.firstImage (skipped ++ part :: rest)%list
  = Some ("data:" ++ m ++ ";base64," ++ d).
Proof.
  intros Hskip Hpart. induction Hskip as [|p ps Hp _ IH].
  - cbn [app GeminiService.firstImage]. now rewrite Hpart.
  - cbn [app GeminiService.firstImage]. unfold unusable in Hp.
    destruct (GeminiService.inlineData p) as [[[d'|] [m'|]]|];
      try exact IH; contradiction.
Qed.

Lemma settle_cases (failed : string) (r : GeminiService.Thrown + string) :
  (exists v, GeminiService.settle failed r = GeminiService.Resolves v)
  \/ GeminiService.settle failed r
     = GeminiService.Rejects (GeminiService.ErrorWith GeminiService.invalidApiKey)
  \/ GeminiService.settle failed r
     = GeminiService.Rejects (GeminiService.ErrorWith failed).
Proof.
  destruct r as [[message|]|uri]; cbn [GeminiService.settle GeminiService.rethrow].
  - destruct (GeminiService.includes "API key not valid" message); auto.
  - auto.
  - left. now exists uri.
Qed.

(** X11.  Whatever happens after the request is sent, the caller sees the
    image or one of two fixed failures: with a configured key and a
    readable file, [generateFashionImage] resolves or rejects with the
    invalid-key or the generic message, and so does [enhanceImage] for a
    well-formed data URI.  In particular the explanation the model gives
    in a text-only response is never passed on. *)
Theorem api_failures_are_replaced
    (typeErrorMessage fileType result uri : string)
    (api : GeminiService.ApiCall) (request : GeminiService.InlineData) :
  (let p := GeminiService.generateFashionImage typeErrorMessage true fileType
              (GeminiService.ReadText result) api in
   (exists v, p = GeminiService.Resolves v)
   \/ p = GeminiService.Rejects (GeminiService.ErrorWith GeminiService.invalidApiKey)
   \/ p = GeminiService.Rejects (GeminiService.ErrorWith GeminiService.generateFailed)) /\
  (GeminiService.enhanceRequest uri = inr request ->
   let p := GeminiService.enhanceImage typeErrorMessage true uri api in
   (exists v, p = GeminiService.Resolves v)
   \/ p = GeminiService.Rejects (GeminiService.ErrorWith GeminiService.invalidApiKey)
   \/ p = GeminiService.Rejects (GeminiService.ErrorWith GeminiService.enhanceFailed)) /\
  (forall (ps : list GeminiService.Part) (answer : string),
     Forall unusable ps -> Js.trim answer <> "" ->
     let p := GeminiService.generateFashionImage typeErrorMessage true fileType
                (GeminiService.ReadText result)
                (GeminiService.ApiResponds
                   {| GeminiService.parts := Some ps;
                      GeminiService.text := Some answer |}) in
     (p = GeminiService.Rejects (GeminiService.ErrorWith GeminiService.invalidApiKey)
      \/ p = GeminiService.Rejects (GeminiService.ErrorWith GeminiService.generateFailed))
     /\ p <> GeminiService.Rejects
               (GeminiService.ErrorWith
                  ("The model returned a text response instead of an image: "
                   ++ GeminiService.doubleQuote ++ Js.trim answer
                   ++ GeminiService.doubleQuote))).
Proof.
  split.
  { cbn zeta. unfold GeminiService.generateFashionImage.
    cbn [negb GeminiService.fileToInlineData]. apply settle_cases. }
  split.
  { intros Hreq. cbn zeta. unfold GeminiService.enhanceImage.
    cbn [negb]. rewrite Hreq. apply settle_cases. }
  intros ps answer Hps Hanswer. cbn zeta.
  unfold GeminiService.generateFashionImage.
  cbn [negb GeminiService.fileToInlineData GeminiService.readResponse
       GeminiService.parts GeminiService.text].
  rewrite (firstImage_unusable ps Hps), (nonempty_eqb _ Hanswer).
  cbn [negb GeminiService.settle GeminiService.rethrow].
  destruct (GeminiService.includes _ _); (split; [auto|]);
    intros E; injection E as E; discriminate E.
Qed.

Lemma api_failures_are_replaced_witness :
  let request := {| GeminiService.data := Some "AAAA";
                    GeminiService.mimeType := Some "image/png" |} in
  let silent := {| GeminiService.inlineData := None |} in
  GeminiService.enhanceRequest "data:image/png;base64,AAAA" = inr request /\
  Forall unusable [silent] /\ Js.trim "I cannot draw that." <> "" /\
  GeminiService.generateFashionImage "" true "image/png"
    (GeminiService.ReadText "data:image/png;base64,AAAA")
    (GeminiService.ApiResponds
       {| GeminiService.parts := Some [silent];
          GeminiService.text := Some "I cannot draw that." |})
  = GeminiService.Rejects (GeminiService.ErrorWith GeminiService.generateFailed).
Proof.
  intros request silent.
  assert (Forall unusable [silent]) as Hs by (repeat constructor).
  assert (Js.trim "I cannot draw that." <> "") as Ht by discriminate.
  split; [reflexivity|]. split; [exact Hs|]. split; [exact Ht|].
  pose proof (api_failures_are_replaced "" "image/png" "data:image/png;base64,AAAA"
                "data:image/png;base64,AAAA"
                (GeminiService.ApiRejects GeminiService.NotAnError) request)
    as (_ & _ & Htext).
  destruct (Htext [silent] "I cannot draw that." Hs Ht) as [[Hk | Hg] _].
  - discriminate Hk.
  - exact Hg.
Defined.

(** X12.  The first part of the response that carries inline data with a
    string payload and a string MIME type decides the result: parts before
    it without such data are passed over, later parts and the text of the
    response are ignored, and the promise resolves to
    [data:<mimeType>;base64,<data>], for the generation and (given a
    well-formed argument) for the enhancement. *)
Theorem first_image_part_wins
    (typeErrorMessage fileType result uri m d : string)
    (skipped rest : list GeminiService.Part) (part : GeminiService.Part)
    (answer : option string) (request : GeminiService.InlineData) :
  Forall unusable skipped ->
  GeminiService.inlineData part
  = Some {| GeminiService.data := Some d; GeminiService.mimeType := Some m |} ->
  let response :=
    GeminiService.ApiResponds
      {| GeminiService.parts := Some (skipped ++ part :: rest)%list;
         GeminiService.text := answer |} in
  GeminiService.generateFashionImage typeErrorMessage true fileType
    (GeminiService.ReadText result) response
  = GeminiService.Resolves ("data:" ++ m ++ ";base64," ++ d) /\
  (GeminiService.enhanceRequest uri = inr request ->
   GeminiService.enhanceImage typeErrorMessage true uri response
   = GeminiService.Resolves ("data:" ++ m ++ ";base64," ++ d)).
Proof.
  intros Hskip Hpart response. subst response.
  pose proof (firstImage_skips skipped rest part m d Hskip Hpart) as Hfirst.
  split.
  - unfold GeminiService.generateFashionImage.
    cbn [negb GeminiService.fileToInlineData GeminiService.readResponse
         GeminiService.parts].
    now rewrite Hfirst.
  - intros Hreq. unfold GeminiService.enhanceImage. cbn [negb]. rewrite Hreq.
    cbn [GeminiService.readResponse GeminiService.parts].
    now rewrite Hfirst.
Qed.

Lemma first_image_part_wins_witness :
  let textPart := {| GeminiService.inlineData := None |} in
  let imagePart := {| GeminiService.inlineData :=
                        Some {| GeminiService.data := Some "AAAA";
                                GeminiService.mimeType := Some "image/png" |} |} in
  Forall unusable [textPart] /\
  GeminiService.generateFashionImage "" true "image/jpeg"
    (GeminiService.ReadText "data:image/jpeg;base64,BBBB")
    (GeminiService.ApiResponds
       {| GeminiService.parts := Some [textPart; imagePart];
          GeminiService.text := Some "Here is your image." |})
  = GeminiService.Resolves "data:image/png;base64,AAAA".
Proof.
  intros textPart imagePart.
  assert (Forall unusable [textPart]) as Hs by (repeat constructor).
  split; [exact Hs|].
  exact (proj1 (first_image_part_wins "" "image/jpeg" "data:image/jpeg;base64,BBBB"
                  "" "image/png" "AAAA" [textPart] [] imagePart
                  (Some "Here is your image.")
                  {| GeminiService.data := None; GeminiService.mimeType := None |}
                  Hs eq_refl)).
Defined.

(** ** The components *)

Lemma trimStart_blank (s : string) : blank s -> Js.trimStart s = "".
Proof.
  induction s as [|c s IH]; [reflexivity|].
  intros [Hc Hs]. cbn [Js.trimStart]. rewrite Hc. now apply IH.
Qed.

Lemma trimStart_head (s : string) (c : ascii) (rest : string) :
  Js.trimStart s = String c rest -> Js.isWhiteSpace c = false.
Proof.
  induction s as [|x s IH]; [discriminate|].
  cbn [Js.trimStart]. destruct (Js.isWhiteSpace x) eqn:Hx; [exact IH|].
  intros E. injection E as <- _. exact Hx.
Qed.

Lemma trimStart_empty (s : string) : Js.trimStart s = "" -> blank s.
Proof.
  induction s as [|x s IH]; [intros _; exact I|].
  cbn [Js.trimStart]. destruct (Js.isWhiteSpace x) eqn:Hx; [|discriminate].
  intros E. split; [exact Hx | now apply IH].
Qed.

Lemma trimEnd_head (c : ascii) (rest : string) :
  Js.isWhiteSpace c = false -> Js.trimEnd (String c rest) <> "".
Proof.
  intros Hc. cbn [Js.trimEnd]. rewrite Hc.
  destruct (Js.trimEnd rest); discriminate.
Qed.

Lemma trim_empty_iff (s : string) : Js.trim s = "" <-> blank s.
Proof.
  unfold Js.trim. split.
  - intros E. destruct (Js.trimStart s) as [|c rest] eqn:Hs.
    + now apply trimStart_empty.
    + exfalso. apply (trimEnd_head c rest); [|exact E].
      exact (trimStart_head s c rest Hs).
  - intros Hb. now rewrite (trimStart_blank s Hb).
Qed.

Section Components.

Variable File : Type.
Variable createObjectURL : File -> string.
Variable numberToString : Q -> string.

Lemma persisting_step_keeps_image (st : PersistingApp.State File)
    (e : PersistingApp.Event File) :
  PersistingApp.resolvesNonEmpty File e ->
  (PersistingApp.showExportModal File st = true ->
   present (PersistingApp.enhancedImage File st) = true) ->
  PersistingApp.showExportModal File
    (PersistingApp.step File createObjectURL numberToString st e) = true ->
  present (PersistingApp.enhancedImage File
             (PersistingApp.step File createObjectURL numberToString st e)) = true.
Proof.
  intros He Hinv.
  destruct e as [file|value| |p| |p| |value|decoded ctx];
    cbn [PersistingApp.step]; try exact Hinv.
  - unfold PersistingApp.handleGenerate_begin.
    destruct (PersistingApp.sourceImage File st); exact Hinv.
  - unfold PersistingApp.handleEnhance_begin.
    destruct (negb (present (PersistingApp.generatedImage File st))); exact Hinv.
  - destruct p as [v|err]; [|exact Hinv].
    intros _. cbn. cbn in He. now rewrite (nonempty_eqb v He).
  - discriminate.
  - unfold PersistingApp.handleFinalDownload_state.
    destruct (PersistingApp.finalDownloadOutcome File numberToString decoded ctx st);
      [exact Hinv | | discriminate].
    destruct (present (PersistingApp.enhancedImage File st)) eqn:Hp;
      [discriminate|].
    intros Ho. cbn in Ho |- *. rewrite Hp. exact (Hinv Ho).
Qed.

Lemma persisting_run_keeps_image (events : list (PersistingApp.Event File))
    (st : PersistingApp.State File) :
  Forall (PersistingApp.resolvesNonEmpty File) events ->
  (PersistingApp.showExportModal File st = true ->
   present (PersistingApp.enhancedImage File st) = true) ->
  PersistingApp.showExportModal File
    (PersistingApp.run File createObjectURL numberToString events st) = true ->
  present (PersistingApp.enhancedImage File
             (PersistingApp.run File createObjectURL numberToString events st)) = true.
Proof.
  intros Hev. revert st.
  induction Hev as [|e events He _ IH]; intros st Hinv; [exact Hinv|].
  unfold PersistingApp.run. cbn [fold_left].
  apply IH. now apply persisting_step_keeps_image.
Qed.

(** X13.  In the component that persists its settings, whenever the export
    modal is open after any sequence of user actions and service results
    (the service never resolving to an empty string), an enhanced image is
    present; so a download started from the modal never ends in the "No
    enhanced image available" error. *)
Theorem open_modal_has_enhanced_image
    (events : list (PersistingApp.Event File)) (loaded : ExportSettings) :
  Forall (PersistingApp.resolvesNonEmpty File) events ->
  let st := PersistingApp.run File createObjectURL numberToString events
              (PersistingApp.initialState File loaded) in
  PersistingApp.showExportModal File st = true ->
  present (PersistingApp.enhancedImage File st) = true /\
  forall (decoded : Decoded) (ctx : bool),
    PersistingApp.finalDownloadOutcome File numberToString decoded ctx st
    <> ErrorShown "No enhanced image available to download.".
Proof.
  intros Hev st Hopen.
  assert (present (PersistingApp.enhancedImage File st) = true) as Hp.
  { apply persisting_run_keeps_image; [exact Hev | discriminate | exact Hopen]. }
  split; [exact Hp|].
  intros decoded ctx. unfold PersistingApp.finalDownloadOutcome. rewrite Hp.
  destruct decoded as [img|]; cbn [handleFinalDownload]; [|discriminate].
  destruct ctx.
  - destruct (finalOnload_downloads numberToString
                (PersistingApp.exportSettings File st) img) as (r & -> & _).
    discriminate.
  - discriminate.
Qed.

Lemma resetting_step_keeps_image (st : ResettingApp.State File)
    (e : ResettingApp.Event File) :
  ResettingApp.resolvesNonEmpty File e ->
  (ResettingApp.isExportModalOpen File st = true ->
   present (ResettingApp.enhancedImageUrl File st) = true) ->
  ResettingApp.isExportModalOpen File
    (ResettingApp.step File createObjectURL numberToString st e) = true ->
  present (ResettingApp.enhancedImageUrl File
             (ResettingApp.step File createObjectURL numberToString st e)) = true.
Proof.
  intros He Hinv.
  destruct e as [file|value| |p| |p| |value|decoded ctx];
    cbn [ResettingApp.step]; try exact Hinv.
  - unfold ResettingApp.handleGenerateClick_begin.
    destruct (ResettingApp.cannotGenerate File st); exact Hinv.
  - unfold ResettingApp.handleEnhanceClick_begin.
    destruct (negb (present (ResettingApp.generatedImageUrl File st))); exact Hinv.
  - destruct p as [v|err]; [|exact Hinv].
    intros _. cbn. cbn in He. now rewrite (nonempty_eqb v He).
  - discriminate.
  - unfold ResettingApp.handleDownload_state.
    destruct (ResettingApp.downloadOutcome File numberToString decoded ctx st);
      [exact Hinv | exact Hinv | discriminate].
Qed.

(** X14.  In the component that resets its settings, whenever the export
    modal is open after any sequence of user actions and service results
    (the service never resolving to an empty string), an enhanced image is
    present; so a download started from the modal with a decodable image
    and a 2D context always produces a file instead of returning
    silently. *)
Theorem open_modal_always_downloads
    (events : list (ResettingApp.Event File)) :
  Forall (ResettingApp.resolvesNonEmpty File) events ->
  let st := ResettingApp.run File createObjectURL numberToString events
              (ResettingApp.initialState File) in
  ResettingApp.isExportModalOpen File st = true ->
  present (ResettingApp.enhancedImageUrl File st) = true /\
  forall img : Image,
    exists r, ResettingApp.downloadOutcome File numberToString (Loads img) true st
              = Downloaded r.
Proof.
  intros Hev st Hopen.
  assert (forall (evs : list (ResettingApp.Event File)) (s0 : ResettingApp.State File),
            Forall (ResettingApp.resolvesNonEmpty File) evs ->
            (ResettingApp.isExportModalOpen File s0 = true ->
             present (ResettingApp.enhancedImageUrl File s0) = true) ->
            ResettingApp.isExportModalOpen File
              (ResettingApp.run File createObjectURL numberToString evs s0) = true ->
            present (ResettingApp.enhancedImageUrl File
                       (ResettingApp.run File createObjectURL numberToString evs s0))
            = true) as Hrun.
  { intros evs s0 Hevs. revert s0.
    induction Hevs as [|e evs He _ IH]; intros s0 Hinv; [exact Hinv|].
    unfold ResettingApp.run. cbn [fold_left].
    apply IH. now apply resetting_step_keeps_image. }
  assert (present (ResettingApp.enhancedImageUrl File st) = true) as Hp.
  { apply Hrun; [exact Hev | discriminate | exact Hopen]. }
  split; [exact Hp|].
  intros img. unfold ResettingApp.downloadOutcome. rewrite Hp.
  destruct (downloadOnload_downloads numberToString
              (ResettingApp.exportSettings File st) img) as (r & Hr & _).
  exists r. exact Hr.
Qed.

(** X15.  [handleGenerateClick] refuses exactly the states without an
    uploaded image or with a prompt of white space only (the empty prompt
    included): it then sets the error message, changes nothing else and
    the Generate button is disabled; in every other state it clears the
    error and the previous result and starts loading. *)
Theorem generation_needs_image_and_prompt (st : ResettingApp.State File) :
  (ResettingApp.cannotGenerate File st = true
   <-> ResettingApp.uploadedImageFile File st = None
       \/ blank (ResettingApp.scenePrompt File st)) /\
  (ResettingApp.cannotGenerate File st = true ->
   ResettingApp.handleGenerateClick_begin File st
   = ResettingApp.setError File
       (Some "Please upload an image and provide a scene description.") st
   /\ ResettingApp.generateDisabled File st = true) /\
  (ResettingApp.cannotGenerate File st = false ->
   let st' := ResettingApp.handleGenerateClick_begin File st in
   ResettingApp.isLoading File st' = true
   /\ ResettingApp.error File st' = None
   /\ ResettingApp.generatedImageUrl File st' = None).
Proof.
  split; [|split].
  - unfold ResettingApp.cannotGenerate. rewrite Bool.orb_true_iff.
    rewrite String.eqb_eq, trim_empty_iff.
    destruct (ResettingApp.uploadedImageFile File st);
      split; intros [H|H]; auto; discriminate.
  - intros Hc. unfold ResettingApp.handleGenerateClick_begin. rewrite Hc.
    split; [reflexivity|].
    unfold ResettingApp.generateDisabled. unfold ResettingApp.cannotGenerate in Hc.
    rewrite <- Bool.orb_assoc, Hc. apply Bool.orb_true_r.
  - intros Hc st'. subst st'.
    unfold ResettingApp.handleGenerateClick_begin. rewrite Hc.
    repeat split.
Qed.

End Components.

Lemma generation_needs_image_and_prompt_witness :
  let st := ResettingApp.setScenePrompt nat "   "
              (ResettingApp.handleImageUpload nat (fun _ => "blob:1") 0%nat
                 (ResettingApp.initialState nat)) in
  ResettingApp.cannotGenerate nat st = true /\
  ResettingApp.generateDisabled nat st = true.
Proof.
  intros st.
  assert (ResettingApp.cannotGenerate nat st = true) as Hc by reflexivity.
  split; [exact Hc|].
  exact (proj2 (proj1 (proj2 (generation_needs_image_and_prompt nat st)) Hc)).
Defined.

Lemma open_modal_has_enhanced_image_witness :
  let events :=
    [PersistingApp.Upload nat 0%nat;
     PersistingApp.GenerateClicked nat;
     PersistingApp.GenerateSettled nat
       (GeminiService.Resolves "data:image/png;base64,AAAA");
     PersistingApp.EnhanceClicked nat;
     PersistingApp.EnhanceSettled nat
       (GeminiService.Resolves "data:image/png;base64,BBBB")] in
  let st := PersistingApp.run nat (fun _ => "blob:1") integerToString events
              (PersistingApp.initialState nat initialExportSettings) in
  Forall (PersistingApp.resolvesNonEmpty nat) events /\
  PersistingApp.showExportModal nat st = true /\
  present (PersistingApp.enhancedImage nat st) = true.
Proof.
  intros events st.
  assert (Forall (PersistingApp.resolvesNonEmpty nat) events) as Hev.
  { repeat constructor; discriminate. }
  split; [exact Hev|]. split; [reflexivity|].
  exact (proj1 (open_modal_has_enhanced_image nat (fun _ => "blob:1") integerToString
                  events initialExportSettings Hev eq_refl)).
Defined.

Lemma open_modal_always_downloads_witness :
  let events :=
    [ResettingApp.Upload nat 0%nat;
     ResettingApp.PromptChanged nat "a runway in Paris";
     ResettingApp.GenerateClicked nat;
     ResettingApp.GenerateSettled nat
       (GeminiService.Resolves "data:image/png;base64,AAAA");
     ResettingApp.EnhanceClicked nat;
     ResettingApp.EnhanceSettled nat
       (GeminiService.Resolves "data:image/png;base64,BBBB")] in
  let st := ResettingApp.run nat (fun _ => "blob:1") integerToString events
              (ResettingApp.initialState nat) in
  Forall (ResettingApp.resolvesNonEmpty nat) events /\
  ResettingApp.isExportModalOpen nat st = true /\
  present (ResettingApp.enhancedImageUrl nat st) = true.
Proof.
  intros events st.
  assert (Forall (ResettingApp.resolvesNonEmpty nat) events) as Hev.
  { repeat constructor; discriminate. }
  split; [exact Hev|]. split; [reflexivity|].
  exact (proj1 (open_modal_always_downloads nat (fun _ => "blob:1") integerToString
                  events Hev eq_refl)).
Defined.

Lemma firstImage_data_uri (ps : list GeminiService.Part) (uri : string) :
  GeminiService.firstImage ps = Some uri ->
  exists m d : string, uri = "data:" ++ m ++ ";base64," ++ d.
Proof.
  induction ps as [|part ps IH]; [discriminate|].
  cbn [GeminiService.firstImage].
  destruct (GeminiService.inlineData part) as [[[d|] [m|]]|]; try exact IH.
  intros E. injection E as <-. now exists m, d.
Qed.

Lemma readResponse_data_uri (t : string) (f : string -> string) (n : string)
    (api : GeminiService.ApiCall) (uri : string) :
  GeminiService.readResponse t f n api = inr uri ->
  exists m d : string, uri = "data:" ++ m ++ ";base64," ++ d.
Proof.
  unfold GeminiService.readResponse.
  destruct api as [reason|response]; [discriminate|].
  destruct (GeminiService.parts response) as [ps|]; [|discriminate].
  destruct (GeminiService.firstImage ps) as [u|] eqn:Hu.
  - intros E. injection E as <-. now apply (firstImage_data_uri ps).
  - destruct (GeminiService.text response) as [a|]; [|discriminate].
    destruct (negb (String.eqb (Js.trim a) "")); discriminate.
Qed.

(** X16.  Whenever [generateFashionImage] or [enhanceImage] resolves, the
    value is a data URI of the form [data:<mimeType>;base64,<data>]; in
    particular it is never the empty string, which the components would
    treat as no image. *)
Theorem service_resolves_to_data_uri
    (typeErrorMessage fileType uri : string) (isApiKeySet : bool)
    (read : GeminiService.FileRead) (api : GeminiService.ApiCall) (v : string) :
  GeminiService.generateFashionImage typeErrorMessage isApiKeySet fileType read api
  = GeminiService.Resolves v
  \/ GeminiService.enhanceImage typeErrorMessage isApiKeySet uri api
     = GeminiService.Resolves v ->
  (exists m d : string, v = "data:" ++ m ++ ";base64," ++ d)
  /\ present (Some v) = true.
Proof.
  intros Hv.
  assert (exists m d : string, v = "data:" ++ m ++ ";base64," ++ d)
    as (m & d & ->).
  { destruct Hv as [Hv|Hv].
    - unfold GeminiService.generateFashionImage in Hv.
      destruct isApiKeySet; [|discriminate]. cbn [negb] in Hv.
      destruct (GeminiService.fileToInlineData fileType read); [discriminate|].
      destruct (GeminiService.readResponse _ _ _ api) as [e|u] eqn:Hr;
        [discriminate|].
      cbn [GeminiService.settle] in Hv. injection Hv as <-.
      exact (readResponse_data_uri _ _ _ _ _ Hr).
    - unfold GeminiService.enhanceImage in Hv.
      destruct isApiKeySet; [|discriminate]. cbn [negb] in Hv.
      destruct (GeminiService.enhanceRequest uri); [discriminate|].
      destruct (GeminiService.readResponse _ _ _ api) as [e|u] eqn:Hr;
        [discriminate|].
      cbn [GeminiService.settle] in Hv. injection Hv as <-.
      exact (readResponse_data_uri _ _ _ _ _ Hr). }
  split; [now exists m, d | reflexivity].
Qed.

Lemma service_resolves_to_data_uri_witness :
  let imagePart := {| GeminiService.inlineData :=
                        Some {| GeminiService.data := Some "AAAA";
                                GeminiService.mimeType := Some "image/png" |} |} in
  let api := GeminiService.ApiResponds
               {| GeminiService.parts := Some [imagePart];
                  GeminiService.text := None |} in
  GeminiService.generateFashionImage "" true "image/jpeg"
    (GeminiService.ReadText "data:image/jpeg;base64,BBBB") api
  = GeminiService.Resolves "data:image/png;base64,AAAA"
  /\ present (Some "data:image/png;base64,AAAA") = true.
Proof.
  intros imagePart api.
  assert (GeminiService.generateFashionImage "" true "image/jpeg"
            (GeminiService.ReadText "data:image/jpeg;base64,BBBB") api
          = GeminiService.Resolves "data:image/png;base64,AAAA") as Hv
    by reflexivity.
  split; [exact Hv|].
  exact (proj2 (service_resolves_to_data_uri "" "image/jpeg" "" true
                  (GeminiService.ReadText "data:image/jpeg;base64,BBBB") api
                  "data:image/png;base64,AAAA" (or_introl Hv))).
Defined.

(** X17.  After a generation settles, each component has stopped loading
    and either shows the new image with the error untouched, or keeps the
    image it had and shows one of five fixed messages: key not configured,
    invalid key, the generic failure, "Failed to read file." or the
    component's own fall-back for a rejection that is not an [Error]. *)
Theorem generation_outcome_is_shown
    (File : Type) (typeErrorMessage fileType : string) (isApiKeySet : bool)
    (read : GeminiService.FileRead) (api : GeminiService.ApiCall)
    (a : PersistingApp.State File) (b : ResettingApp.State File) :
  let p := GeminiService.generateFashionImage typeErrorMessage isApiKeySet
             fileType read api in
  let a' := PersistingApp.handleGenerate_settle File p a in
  let b' := ResettingApp.handleGenerateClick_settle File p b in
  (PersistingApp.isLoading File a' = false /\
   ((exists v, PersistingApp.generatedImage File a' = Some v
               /\ p = GeminiService.Resolves v
               /\ PersistingApp.error File a' = PersistingApp.error File a)
    \/ (PersistingApp.generatedImage File a' = PersistingApp.generatedImage File a
        /\ exists m, PersistingApp.error File a' = Some m
                     /\ In m [GeminiService.notConfigured; GeminiService.invalidApiKey;
                              GeminiService.generateFailed; "Failed to read file.";
                              "An unknown error occurred."]))) /\
  (ResettingApp.isLoading File b' = false /\
   ((exists v, ResettingApp.generatedImageUrl File b' = Some v
               /\ p = GeminiService.Resolves v
               /\ ResettingApp.error File b' = ResettingApp.error File b)
    \/ (ResettingApp.generatedImageUrl File b' = ResettingApp.generatedImageUrl File b
        /\ exists m, ResettingApp.error File b' = Some m
                     /\ In m [GeminiService.notConfigured; GeminiService.invalidApiKey;
                              GeminiService.generateFailed; "Failed to read file.";
                              "An unknown error occurred during image generation."]))).
Proof.
  intros p a' b'.
  assert ((exists v, p = GeminiService.Resolves v)
          \/ (exists r, p = GeminiService.Rejects r
                /\ (r = GeminiService.NotAnError
                    \/ exists m, r = GeminiService.ErrorWith m
                         /\ In m [GeminiService.notConfigured;
                                  GeminiService.invalidApiKey;
                                  GeminiService.generateFailed;
                                  "Failed to read file."]))) as Hp.
  { subst p. unfold GeminiService.generateFashionImage.
    destruct isApiKeySet; cbn [negb].
    - destruct read as [result| |]; cbn [GeminiService.fileToInlineData].
      + destruct (settle_cases GeminiService.generateFailed
                    (GeminiService.readResponse typeErrorMessage
                       (fun textResponse =>
                          "The model returned a text response instead of an image: "
                          ++ GeminiService.doubleQuote ++ textResponse
                          ++ GeminiService.doubleQuote)
                       "No image was generated. The model response did not contain image data."
                       api)) as [Hv | [Hk | Hg]].
        * left. exact Hv.
        * right. eexists. split; [exact Hk|]. right. eexists. split; [reflexivity|].
          cbn. auto.
        * right. eexists. split; [exact Hg|]. right. eexists. split; [reflexivity|].
          cbn. auto.
      + right. eexists. split; [reflexivity|]. right. eexists.
        split; [reflexivity|]. cbn. auto.
      + right. eexists. split; [reflexivity|]. now left.
    - right. eexists. split; [reflexivity|]. right. eexists.
      split; [reflexivity|]. cbn. auto. }
  subst a' b'.
  destruct Hp as [(v & ->) | (r & -> & Hr)].
  - split; (split; [reflexivity|]); left; exists v; repeat split.
  - split; (split; [reflexivity|]); right; (split; [reflexivity|]);
      (destruct Hr as [-> | (m & -> & Hm)];
       eexists; (split; [reflexivity|]);
       [cbn; tauto | cbn in Hm |- *; tauto]).
Qed.

(** ** The image panel *)

(** X18.  The panel shows exactly one of the loading overlay, the image
    and the placeholder, and whenever the Enhance button is shown and not
    disabled the image is what is shown. *)
Theorem panel_shows_exactly_one (p : ImageDisplay.Props) :
  ((ImageDisplay.showsOverlay p = true /\ ImageDisplay.showsImage p = false
    /\ ImageDisplay.showsPlaceholder p = false)
   \/ (ImageDisplay.showsOverlay p = false /\ ImageDisplay.showsImage p = true
       /\ ImageDisplay.showsPlaceholder p = false)
   \/ (ImageDisplay.showsOverlay p = false /\ ImageDisplay.showsImage p = false
       /\ ImageDisplay.showsPlaceholder p = true)) /\
  (ImageDisplay.showsEnhanceButton p = true ->
   ImageDisplay.enhanceDisabled p = false ->
   ImageDisplay.showsImage p = true).
Proof.
  unfold ImageDisplay.showsOverlay, ImageDisplay.showsImage,
    ImageDisplay.showsPlaceholder, ImageDisplay.showsEnhanceButton,
    ImageDisplay.enhanceDisabled, ImageDisplay.showLoading.
  destruct (present (ImageDisplay.imageUrl p)), (ImageDisplay.isLoading p),
    (ImageDisplay.isEnhancing p), (ImageDisplay.onEnhanceClick p);
    cbn; split; try tauto; try discriminate; auto.
Qed.

Lemma panel_shows_exactly_one_witness :
  let p := {| ImageDisplay.imageUrl := Some "data:image/png;base64,AAAA";
              ImageDisplay.isLoading := false; ImageDisplay.isEnhancing := false;
              ImageDisplay.onEnhanceClick := true |} in
  ImageDisplay.showsEnhanceButton p = true /\
  ImageDisplay.enhanceDisabled p = false /\
  ImageDisplay.showsImage p = true.
Proof.
  intros p. split; [reflexivity|]. split; [reflexivity|].
  exact (proj2 (panel_shows_exactly_one p) eq_refl eq_refl).
Defined.

Lemma clampScale_cases (v : Q) :
  (v <= 1 /\ ImageDisplay.clampScale v = 1)
  \/ (1 < v /\ v <= 5 /\ ImageDisplay.clampScale v = v)
  \/ (5 < v /\ ImageDisplay.clampScale v = 5).
Proof.
  unfold ImageDisplay.clampScale, ImageDisplay.Math_min, ImageDisplay.Math_max.
  destruct (Qle_bool v 5) eqn:H5.
  - apply Qle_bool_iff in H5.
    destruct (Qle_bool v 1) eqn:H1.
    + apply Qle_bool_iff in H1. left. split; [exact H1 | reflexivity].
    + right. left. split; [|split; [exact H5 | reflexivity]].
      apply Qnot_le_lt. intros Hle. apply Qle_bool_iff in Hle. congruence.
  - right. right. split; [|reflexivity].
    apply Qnot_le_lt. intros Hle. apply Qle_bool_iff in Hle. congruence.
Qed.

Lemma clampScale_range (v : Q) :
  1 <= ImageDisplay.clampScale v /\ ImageDisplay.clampScale v <= 5.
Proof.
  destruct (clampScale_cases v) as [(_ & ->) | [(H1 & H5 & ->) | (_ & ->)]];
    split; try lra; discriminate.
Qed.

Lemma handleWheel_scale (p : ImageDisplay.Props) (container : option ImageDisplay.Point)
    (deltaY clientX clientY : Q) (st : ImageDisplay.State) :
  ImageDisplay.handleWheel p container deltaY clientX clientY st = st
  \/ ImageDisplay.scale (ImageDisplay.handleWheel p container deltaY clientX clientY st)
     = ImageDisplay.clampScale
         (ImageDisplay.scale st - deltaY * 0.1 * 0.1).
Proof.
  unfold ImageDisplay.handleWheel.
  destruct container as [rect|]; [|now left].
  destruct (negb (ImageDisplay.isInteractive p) || ImageDisplay.isDragging st);
    [now left|].
  destruct (Js.ltb _ 0.01); [now left | now right].
Qed.

Lemma step_scale (p : ImageDisplay.Props) (st : ImageDisplay.State)
    (e : ImageDisplay.Event) :
  1 <= ImageDisplay.scale st <= 5 ->
  1 <= ImageDisplay.scale (ImageDisplay.step p st e) <= 5.
Proof.
  intros Hst. destruct e as [container deltaY cx cy|cx cy|cx cy| |];
    cbn [ImageDisplay.step].
  - destruct (handleWheel_scale p container deltaY cx cy st) as [-> | ->];
      [exact Hst | apply clampScale_range].
  - unfold ImageDisplay.handleMouseDown.
    destruct (_ || _); exact Hst.
  - unfold ImageDisplay.handleMouseMove.
    destruct (_ || _); exact Hst.
  - unfold ImageDisplay.handleMouseUpOrLeave.
    destruct (_ || _); exact Hst.
  - cbn. split; discriminate.
Qed.

(** X19.  However the panel is scrolled, dragged and reset, its zoom factor
    stays between 1 and 5. *)
Theorem scale_stays_in_range (p : ImageDisplay.Props) (events : list ImageDisplay.Event) :
  1 <= ImageDisplay.scale (ImageDisplay.run p events ImageDisplay.initialState) <= 5.
Proof.
  assert (forall st, 1 <= ImageDisplay.scale st <= 5 ->
                     1 <= ImageDisplay.scale (ImageDisplay.run p events st) <= 5)
    as Hrun.
  { induction events as [|e events IH]; intros st Hst; [exact Hst|].
    unfold ImageDisplay.run. cbn [fold_left].
    apply IH. now apply step_scale. }
  apply Hrun. cbn. split; discriminate.
Qed.



(** X21.  Wheel steps of at most 0.99 units never zoom: for a zoom factor
    between 1 and 5 and [|deltaY| <= 0.99], the change of the factor stays
    below the threshold of 0.01 and [handleWheel] leaves the state as it
    is. *)
Theorem small_wheel_steps_are_ignored
    (p : ImageDisplay.Props) (container : option ImageDisplay.Point)
    (deltaY clientX clientY : Q) (st : ImageDisplay.State) :
  1 <= ImageDisplay.scale st <= 5 -> Qabs deltaY <= 0.99 ->
  ImageDisplay.handleWheel p container deltaY clientX clientY st = st.
Proof.
  intros [Hlo Hhi] Hd. unfold ImageDisplay.handleWheel.
  destruct container as [rect|]; [|reflexivity].
  destruct (negb (ImageDisplay.isInteractive p) || ImageDisplay.isDragging st);
    [reflexivity|].
  assert (Js.ltb (Js.Math_abs
                    (ImageDisplay.clampScale
                       (ImageDisplay.scale st - deltaY * 0.1 * 0.1)
                     - ImageDisplay.scale st)) 0.01 = true) as ->; [|reflexivity].
  apply ltb_true. unfold Js.Math_abs.
  apply Qabs_Qle_condition in Hd. destruct Hd as [Hd1 Hd2].
  apply Qabs_Qlt_condition.
  set (s := ImageDisplay.scale st) in *.
  destruct (clampScale_cases (s - deltaY * 0.1 * 0.1))
    as [(H1 & ->) | [(H1 & H5 & ->) | (H5 & ->)]]; split; lra.
Qed.

Lemma small_wheel_steps_are_ignored_witness :
  let p := {| ImageDisplay.imageUrl := Some "data:image/png;base64,AAAA";
              ImageDisplay.isLoading := false; ImageDisplay.isEnhancing := false;
              ImageDisplay.onEnhanceClick := true |} in
  1 <= ImageDisplay.scale ImageDisplay.initialState <= 5 /\
  Qabs (1 # 2) <= 0.99 /\
  ImageDisplay.handleWheel p (Some ImageDisplay.origin) (1 # 2) 30 40
    ImageDisplay.initialState = ImageDisplay.initialState.
Proof.
  intros p.
  assert (1 <= ImageDisplay.scale ImageDisplay.initialState <= 5) as Hs
    by (split; discriminate).
  assert (Qabs (1 # 2) <= 0.99) as Hd by discriminate.
  split; [exact Hs|]. split; [exact Hd|].
  exact (small_wheel_steps_are_ignored p (Some ImageDisplay.origin) (1 # 2) 30 40
           ImageDisplay.initialState Hs Hd).
Defined.

(** X22.  Scrolling up never zooms out and scrolling down never zooms in:
    for a zoom factor between 1 and 5, [handleWheel] with [deltaY <= 0]
    does not decrease the factor and with [deltaY >= 0] does not increase
    it. *)
Theorem wheel_direction
    (p : ImageDisplay.Props) (container : option ImageDisplay.Point)
    (deltaY clientX clientY : Q) (st : ImageDisplay.State) :
  1 <= ImageDisplay.scale st <= 5 ->
  let st' := ImageDisplay.handleWheel p container deltaY clientX clientY st in
  (deltaY <= 0 -> ImageDisplay.scale st <= ImageDisplay.scale st') /\
  (0 <= deltaY -> ImageDisplay.scale st' <= ImageDisplay.scale st).
Proof.
  intros [Hlo Hhi] st'. subst st'.
  destruct (handleWheel_scale p container deltaY clientX clientY st) as [-> | ->];
    [split; intros _; lra|].
  set (s := ImageDisplay.scale st) in *.
  destruct (clampScale_cases (s - deltaY * 0.1 * 0.1))
    as [(H1 & ->) | [(H1 & H5 & ->) | (H5 & ->)]]; split; intros Hd; lra.
Qed.

Lemma wheel_direction_witness :
  let p := {| ImageDisplay.imageUrl := Some "data:image/png;base64,AAAA";
              ImageDisplay.isLoading := false; ImageDisplay.isEnhancing := false;
              ImageDisplay.onEnhanceClick := true |} in
  1 <= ImageDisplay.scale ImageDisplay.initialState <= 5 /\
  -100 <= 0 /\
  ImageDisplay.scale ImageDisplay.initialState
  <= ImageDisplay.scale
       (ImageDisplay.handleWheel p (Some ImageDisplay.origin) (-100) 30 40
          ImageDisplay.initialState).
Proof.
  intros p.
  assert (1 <= ImageDisplay.scale ImageDisplay.initialState <= 5) as Hs
    by (split; discriminate).
  assert (-100 <= 0) as Hd by discriminate.
  split; [exact Hs|]. split; [exact Hd|].
  exact (proj1 (wheel_direction p (Some ImageDisplay.origin) (-100) 30 40
                  ImageDisplay.initialState Hs) Hd).
Defined.

Lemma run_app (p : ImageDisplay.Props) (a b : list ImageDisplay.Event)
    (st : ImageDisplay.State) :
  ImageDisplay.run p (a ++ b)%list st = ImageDisplay.run p b (ImageDisplay.run p a st).
Proof. unfold ImageDisplay.run. apply fold_left_app. Qed.

(** X23.  A drag moves the image by exactly the displacement of the mouse:
    on an interactive panel that is zoomed in and not loading, after a
    mouse-down at [(x0, y0)] and any mouse moves that end at [(x1, y1)],
    the position is the position at the mouse-down plus
    [(x1 - x0, y1 - y0)], whatever path the mouse took, and the zoom factor
    is unchanged. *)
Theorem drag_follows_the_mouse
    (p : ImageDisplay.Props) (st : ImageDisplay.State)
    (x0 y0 x1 y1 : Q) (path : list (Q * Q)) :
  ImageDisplay.isInteractive p = true -> ImageDisplay.showLoading p = false ->
  1 < ImageDisplay.scale st ->
  let events :=
    (ImageDisplay.MouseDown x0 y0
     :: map (fun m => ImageDisplay.MouseMove (fst m) (snd m)) path
     ++ [ImageDisplay.MouseMove x1 y1])%list in
  let st' := ImageDisplay.run p events st in
  ImageDisplay.position st'
  = {| ImageDisplay.x := ImageDisplay.x (ImageDisplay.position st) + (x1 - x0);
       ImageDisplay.y := ImageDisplay.y (ImageDisplay.position st) + (y1 - y0) |}
  /\ ImageDisplay.scale st' = ImageDisplay.scale st
  /\ ImageDisplay.isDragging st' = true.
Proof.
  intros Hi Hl Hs events st'. subst st' events.
  assert (Qle_bool (ImageDisplay.scale st) 1 = false) as Hz.
  { destruct (Qle_bool (ImageDisplay.scale st) 1) eqn:E; [|reflexivity].
    apply Qle_bool_iff in E. lra. }
  pose (held := fun s : ImageDisplay.State =>
          ImageDisplay.scale s = ImageDisplay.scale st
          /\ ImageDisplay.isDragging s = true
          /\ ImageDisplay.startMousePos s = {| ImageDisplay.x := x0; ImageDisplay.y := y0 |}
          /\ ImageDisplay.startImgPos s = ImageDisplay.position st).
  assert (forall (moves : list (Q * Q)) (s : ImageDisplay.State), held s ->
            held (ImageDisplay.run p
                    (map (fun m => ImageDisplay.MouseMove (fst m) (snd m)) moves) s))
    as Hmoves.
  { induction moves as [|m moves IH]; intros s Hheld; [exact Hheld|].
    unfold ImageDisplay.run. cbn [map fold_left]. apply IH.
    destruct Hheld as (H1 & H2 & H3 & H4).
    cbn [ImageDisplay.step]. unfold ImageDisplay.handleMouseMove.
    rewrite Hi, H2. cbn [negb orb]. repeat split; assumption. }
  change (ImageDisplay.run p
            (ImageDisplay.MouseDown x0 y0
             :: (map (fun m => ImageDisplay.MouseMove (fst m) (snd m)) path
                 ++ [ImageDisplay.MouseMove x1 y1])%list) st)
    with (ImageDisplay.run p
            (map (fun m => ImageDisplay.MouseMove (fst m) (snd m)) path
             ++ [ImageDisplay.MouseMove x1 y1])%list
            (ImageDisplay.handleMouseDown p x0 y0 st)).
  rewrite run_app.
  assert (held (ImageDisplay.handleMouseDown p x0 y0 st)) as Hdown.
  { unfold ImageDisplay.handleMouseDown. rewrite Hi, Hz, Hl.
    cbn [negb orb]. repeat split. }
  destruct (Hmoves path _ Hdown) as (H1 & H2 & H3 & H4).
  set (s := ImageDisplay.run p _ (ImageDisplay.handleMouseDown p x0 y0 st)) in *.
  unfold ImageDisplay.run. cbn [fold_left ImageDisplay.step].
  unfold ImageDisplay.handleMouseMove. rewrite Hi, H2. cbn [negb orb].
  cbn [ImageDisplay.position ImageDisplay.scale ImageDisplay.isDragging].
  rewrite H3, H4. cbn [ImageDisplay.x ImageDisplay.y].
  repeat split; assumption.
Qed.

Lemma drag_follows_the_mouse_witness :
  let p := {| ImageDisplay.imageUrl := Some "data:image/png;base64,AAAA";
              ImageDisplay.isLoading := false; ImageDisplay.isEnhancing := false;
              ImageDisplay.onEnhanceClick := true |} in
  let st := ImageDisplay.handleWheel p (Some ImageDisplay.origin) (-100) 30 40
              ImageDisplay.initialState in
  ImageDisplay.isInteractive p = true /\ ImageDisplay.showLoading p = false /\
  1 < ImageDisplay.scale st /\
  ImageDisplay.position
    (ImageDisplay.run p
       [ImageDisplay.MouseDown 10 10; ImageDisplay.MouseMove 50 5;
        ImageDisplay.MouseMove 25 30] st)
  = {| ImageDisplay.x := ImageDisplay.x (ImageDisplay.position st) + (25 - 10);
       ImageDisplay.y := ImageDisplay.y (ImageDisplay.position st) + (30 - 10) |}.
Proof.
  intros p st.
  split; [reflexivity|]. split; [reflexivity|]. split; [reflexivity|].
  exact (proj1 (drag_follows_the_mouse p st 10 10 25 30 [(50, 5)]
                  eq_refl eq_refl eq_refl)).
Defined.

(** X24.  An image that is not zoomed in cannot be panned: from a state
    with zoom factor at most 1 and no drag in progress, mouse-down, mouse
    move and mouse-up events leave the state unchanged. *)
Theorem unzoomed_image_cannot_be_panned
    (p : ImageDisplay.Props) (events : list ImageDisplay.Event)
    (st : ImageDisplay.State) :
  ImageDisplay.scale st <= 1 -> ImageDisplay.isDragging st = false ->
  Forall (fun e => ImageDisplay.isMouseEvent e = true) events ->
  ImageDisplay.run p events st = st.
Proof.
  intros Hs Hd Hev. apply Qle_bool_iff in Hs.
  induction Hev as [|e events He _ IH]; [reflexivity|].
  unfold ImageDisplay.run. cbn [fold_left].
  assert (ImageDisplay.step p st e = st) as ->; [|exact IH].
  destruct e as [container deltaY cx cy|cx cy|cx cy| |]; try discriminate He;
    cbn [ImageDisplay.step].
  - unfold ImageDisplay.handleMouseDown. rewrite Hs.
    now rewrite Bool.orb_true_r.
  - unfold ImageDisplay.handleMouseMove. rewrite Hd.
    now rewrite Bool.orb_true_r.
  - unfold ImageDisplay.handleMouseUpOrLeave. rewrite Hd.
    now rewrite Bool.orb_true_r.
Qed.

Lemma unzoomed_image_cannot_be_panned_witness :
  let p := {| ImageDisplay.imageUrl := Some "data:image/png;base64,AAAA";
              ImageDisplay.isLoading := false; ImageDisplay.isEnhancing := false;
              ImageDisplay.onEnhanceClick := true |} in
  let events := [ImageDisplay.MouseDown 10 10; ImageDisplay.MouseMove 50 5;
                 ImageDisplay.MouseUpOrLeave] in
  ImageDisplay.scale ImageDisplay.initialState <= 1 /\
  ImageDisplay.isDragging ImageDisplay.initialState = false /\
  Forall (fun e => ImageDisplay.isMouseEvent e = true) events /\
  ImageDisplay.run p events ImageDisplay.initialState = ImageDisplay.initialState.
Proof.
  intros p events.
  assert (ImageDisplay.scale ImageDisplay.initialState <= 1) as Hs by discriminate.
  assert (Forall (fun e => ImageDisplay.isMouseEvent e = true) events) as Hev
    by (repeat constructor).
  split; [exact Hs|]. split; [reflexivity|]. split; [exact Hev|].
  exact (unzoomed_image_cannot_be_panned p events ImageDisplay.initialState
           Hs eq_refl Hev).
Defined.

(** X25.  [fileToInlineData] sends the file's type together with the piece
    of the data URL between its first and second comma: for a data URL
    whose part before the comma has no comma, that is the base64 payload
    up to its own first comma.  A result without any comma still resolves,
    with no payload at all. *)
Theorem file_payload_is_extracted (fileType header payload : string) :
  absent "," header ->
  (absent "," payload ->
   GeminiService.fileToInlineData fileType
     (GeminiService.ReadText (header ++ String "," payload))
   = inr {| GeminiService.data := Some payload;
            GeminiService.mimeType := Some fileType |}) /\
  GeminiService.fileToInlineData fileType (GeminiService.ReadText header)
  = inr {| GeminiService.data := None; GeminiService.mimeType := Some fileType |}.
Proof.
  intros Hh. unfold GeminiService.fileToInlineData. split.
  - intros Hp. rewrite (split_at_separator _ _ _ Hh), (split_absent _ _ Hp).
    reflexivity.
  - now rewrite (split_absent _ _ Hh).
Qed.

Lemma file_payload_is_extracted_witness :
  absent "," "data:image/jpeg;base64" /\ absent "," "BBBB" /\
  GeminiService.fileToInlineData "image/jpeg"
    (GeminiService.ReadText ("data:image/jpeg;base64" ++ String "," "BBBB"))
  = inr {| GeminiService.data := Some "BBBB";
           GeminiService.mimeType := Some "image/jpeg" |}.
Proof.
  assert (absent "," "data:image/jpeg;base64") as Hh by (repeat split; discriminate).
  assert (absent "," "BBBB") as Hp by (repeat split; discriminate).
  split; [exact Hh|]. split; [exact Hp|].
  exact (proj1 (file_payload_is_extracted "image/jpeg" _ _ Hh) Hp).
Defined.
